(** * go-sync: the Slack conversation adapter

    A shallow embedding of [pkg/adapters/slack/conversation/conversation.go]
    and the properties of its three operations [Get], [Add] and [Remove].

    The adapter keeps an email -> Slack ID cache (a Go [map[string]string],
    which may be [nil]) and talks to Slack through the five-method interface
    [iSlackConversation].  Every call through that interface is recorded in a
    call log, so that "no remote call was made" is a statement about the log.

    The logger of the adapter only produces diagnostics and is left out, and
    so is the [context.Context] argument, which the methods ignore.

    The pagination loop of [getListOfSlackUsernames] has no bound of its own;
    the model runs it for at most [fuel] iterations and reports [OutOfFuel]
    when these do not suffice.

    Definitions come first, the lemmas and the properties C1 to C10 after
    them. *)

From stdpp Require Import base option list strings gmap fin_maps.

Local Open Scope string_scope.
Local Open Scope list_scope.

(** ** Go values *)

(** Go's [error] values: [errors.New] creates a leaf, [fmt.Errorf] with a
    [%w] verb wraps an error behind the text that precedes the verb.  Two
    leaves are identified when their texts agree. *)
Inductive error : Type :=
| errors_New (text : string)
| fmt_Errorf (prefix : string) (wrapped : error).

#[global] Instance error_eq_dec : EqDecision error.
Proof. solve_decision. Defined.

(** The [Error()] method. *)
Fixpoint Error (e : error) : string :=
  match e with
  | errors_New text => text
  | fmt_Errorf prefix wrapped => prefix +:+ Error wrapped
  end.

(** [errors.Is]: walk the chain of wrapped errors. *)
Fixpoint errors_Is (e target : error) : bool :=
  if decide (e = target) then true
  else match e with
       | errors_New _ => false
       | fmt_Errorf _ wrapped => errors_Is wrapped target
       end.

(** A Go [map[string]string]; [None] is the [nil] map. *)
Abbreviation GoMap := (option (gmap string string)).

(** [len(m)]: zero on a nil map. *)
Definition map_len (m : GoMap) : nat :=
  match m with
  | None => 0
  | Some g => size g
  end.

(** [v, ok := m[k]]: the entry of a key, if it has one. *)
Definition map_lookup (m : GoMap) (k : string) : option string :=
  match m with
  | None => None
  | Some g => g !! k
  end.

(** [m[k]]: the zero value when the key is missing or the map is nil. *)
Definition map_index (m : GoMap) (k : string) : string :=
  default "" (map_lookup m k).

(** [delete(m, k)]: a no-op on a nil map. *)
Definition map_delete (m : GoMap) (k : string) : GoMap :=
  match m with
  | None => None
  | Some g => Some (delete k g)
  end.

(** [m[k] = v]: [None] stands for the run-time panic
    "assignment to entry in nil map". *)
Definition map_assign (m : GoMap) (k v : string) : option GoMap :=
  match m with
  | None => None
  | Some g => Some (Some (<[k := v]> g))
  end.

(** ** The Slack types the adapter touches *)

Record UserProfile : Type := { Email : string }.

Record User : Type := {
  ID : string;
  IsBot : bool;
  Profile : UserProfile
}.

Record GetUsersInConversationParameters : Type := {
  ChannelID : string;
  Cursor : string;
  Limit : nat
}.

#[global] Instance params_eq_dec : EqDecision GetUsersInConversationParameters.
Proof. solve_decision. Defined.

(** One call through the client interface, with its arguments. *)
Inductive Call : Type :=
| CallGetUsersInConversation (params : GetUsersInConversationParameters)
| CallGetUsersInfo (users : list string)
| CallGetUserByEmail (email : string)
| CallInviteUsersToConversation (channelID : string) (users : list string)
| CallKickUserFromConversation (channelID : string) (user : string).

#[global] Instance Call_eq_dec : EqDecision Call.
Proof. solve_decision. Defined.

(** The calls that change the remote conversation. *)
Definition mutating (c : Call) : bool :=
  match c with
  | CallInviteUsersToConversation _ _ | CallKickUserFromConversation _ _ => true
  | _ => false
  end.

(** How a run of an operation ends: it returns, it panics, or the model's
    iteration budget for the pagination loop is used up. *)
Inductive Outcome (A : Type) : Type :=
| Returned (a : A)
| Panicked (msg : string)
| OutOfFuel.
Arguments Returned {A} a.
Arguments Panicked {A} msg.
Arguments OutOfFuel {A}.

Definition nil_map_panic : string := "assignment to entry in nil map".
Definition nil_deref_panic : string := "invalid memory address or nil pointer dereference".

(** ** The client boundary *)

(** [iSlackConversation]: the subset of the Slack client the adapter uses.
    The remote side is a deterministic machine over a state [St]; each method
    takes the state and gives back its results with the next state.  The
    [*slack.Channel] returned by [InviteUsersToConversation] is discarded by
    the adapter and is not part of the model. *)
Record iSlackConversation (St : Type) : Type := {
  GetUsersInConversation :
    GetUsersInConversationParameters → St → (list string * string * option error) * St;
  GetUsersInfo : list string → St → (option (list User) * option error) * St;
  GetUserByEmail : string → St → (option User * option error) * St;
  InviteUsersToConversation : string → list string → St → option error * St;
  KickUserFromConversation : string → string → St → option error * St
}.
Arguments GetUsersInConversation {St} _ _ _.
Arguments GetUsersInfo {St} _ _ _.
Arguments GetUserByEmail {St} _ _ _.
Arguments InviteUsersToConversation {St} _ _ _ _.
Arguments KickUserFromConversation {St} _ _ _ _.

(** The adapter. *)
Record Conversation (St : Type) : Type := {
  client : iSlackConversation St;
  conversationName : string;
  cache : GoMap
}.
Arguments client {St} _.
Arguments conversationName {St} _.
Arguments cache {St} _.

(** What lies outside the adapter: the remote state, the log of the calls
    made through the client, and the seconds spent in [time.Sleep]. *)
Record World (St : Type) : Type := {
  remote : St;
  calls : list Call;
  slept : nat
}.
Arguments remote {St} _.
Arguments calls {St} _.
Arguments slept {St} _.

(** [ErrCacheEmpty] *)
Definition ErrCacheEmpty : error := errors_New "cache is empty - run Get()".

(** Modelled from the spec: [gosync.ErrReadOnly], the ReadOnly error of the
    root package; the declaration, and so the text of the error, is missing
    from the sources. *)
Definition ErrReadOnly : error := errors_New "readonly".

Section Adapter.
Context {St : Type}.

(** [New]; the option functions only replace the logger. *)
Definition New (cl : iSlackConversation St) (channelName : string) : Conversation St :=
  {| client := cl; conversationName := channelName; cache := Some ∅ |}.

(** *** The monad of the methods: receiver and world are threaded *)

Definition M (A : Type) : Type :=
  Conversation St → World St → Outcome A * Conversation St * World St.

Definition ret {A} (a : A) : M A := λ c w, (Returned a, c, w).

Definition bind {A B} (m : M A) (k : A → M B) : M B :=
  λ c w,
    match m c w with
    | (Returned a, c', w') => k a c' w'
    | (Panicked msg, c', w') => (Panicked msg, c', w')
    | (OutOfFuel, c', w') => (OutOfFuel, c', w')
    end.

Definition panic {A} (msg : string) : M A := λ c w, (Panicked msg, c, w).
Definition out_of_fuel {A} : M A := λ c w, (OutOfFuel, c, w).

(** Reading a field of the receiver. *)
Definition self : M (Conversation St) := λ c w, (Returned c, c, w).

(** The receiver with its [cache] field replaced. *)
Definition with_cache (c : Conversation St) (m : GoMap) : Conversation St :=
  {| client := client c; conversationName := conversationName c; cache := m |}.

(** [c.cache = m] *)
Definition set_cache (m : GoMap) : M unit :=
  λ c w, (Returned tt, with_cache c m, w).

(** [c.cache[k] = v] *)
Definition cache_assign (k v : string) : M unit :=
  λ c w,
    match map_assign (cache c) k v with
    | Some m => set_cache m c w
    | None => (Panicked nil_map_panic, c, w)
    end.

(** [delete(c.cache, k)] *)
Definition cache_delete (k : string) : M unit :=
  λ c w, set_cache (map_delete (cache c) k) c w.

(** Dereferencing a pointer result. *)
Definition deref {A} (p : option A) : M A :=
  match p with
  | Some a => ret a
  | None => panic nil_deref_panic
  end.

(** A call through [c.client]: run the remote machine and log the call. *)
Definition remote_call {A} (what : Call)
    (f : iSlackConversation St → St → A * St) : M A :=
  λ c w,
    let '(a, s) := f (client c) (remote w) in
    (Returned a, c, {| remote := s; calls := calls w ++ [what]; slept := slept w |}).

(** [time.Sleep(n * time.Second)] *)
Definition time_Sleep (n : nat) : M unit :=
  λ c w, (Returned tt, c,
          {| remote := remote w; calls := calls w; slept := slept w + n |}).

End Adapter.

Notation "'let*' x ':=' m 'in' k" := (bind m (λ x, k))
  (at level 10, x name, m at level 100, k at level 200).
Notation "'let*' ' pat ':=' m 'in' k" := (bind m (λ x, match x with pat => k end))
  (at level 10, pat pattern, m at level 100, k at level 200).

Section Operations.
Context {St : Type}.
Local Abbreviation M := (@M St).

(** [getListOfSlackUsernames]: the body of the [for] loop, run at most
    [fuel] times; [cursor] and [users] are the loop's variables. *)
Fixpoint getListOfSlackUsernames_loop (fuel : nat) (cursor : string)
    (users : list string) : M (list string * option error) :=
  match fuel with
  | 0 => out_of_fuel
  | S fuel' =>
      let* c := self in
      let params := {| ChannelID := conversationName c; Cursor := cursor; Limit := 50 |} in
      let* '(pageOfUsers, cursor, err) :=
        remote_call (CallGetUsersInConversation params)
                    (λ cl, GetUsersInConversation cl params) in
      match err with
      | Some e =>
          ret ([], Some (fmt_Errorf
                 ("getusersinconversation(" +:+ conversationName c +:+ ") -> ") e))
      | None =>
          let users := users ++ pageOfUsers in
          if decide (cursor = "") then ret (users, None)
          else getListOfSlackUsernames_loop fuel' cursor users
      end
  end.

Definition getListOfSlackUsernames (fuel : nat) : M (list string * option error) :=
  getListOfSlackUsernames_loop fuel "" [].

(** The [range] loop of [Get] over the resolved users. *)
Fixpoint Get_range (users : list User) (emails : list string) : M (list string) :=
  match users with
  | [] => ret emails
  | user :: rest =>
      if negb (IsBot user) then
        let emails := emails ++ [Email (Profile user)] in
        let* _ := cache_assign (Email (Profile user)) (ID user) in
        Get_range rest emails
      else Get_range rest emails
  end.

(** [Get]: the emails of the Slack users in the conversation.  A [nil]
    slice result is [None]. *)
Definition Get (fuel : nat) : M (option (list string) * option error) :=
  let* '(slackUsers, err) := getListOfSlackUsernames fuel in
  match err with
  | Some e =>
      ret (None, Some (fmt_Errorf "slack.conversation.get.getlistofslackusernames -> " e))
  | None =>
      let* '(users, err) := remote_call (CallGetUsersInfo slackUsers)
                                   (λ cl, GetUsersInfo cl slackUsers) in
      match err with
      | Some e => ret (None, Some (fmt_Errorf "slack.conversation.get.getusersinfo -> " e))
      | None =>
          let* users := deref users in
          let* emails := Get_range users [] in
          ret (Some emails, None)
      end
  end.

(** The [range] loop of [Add]: [inl] is the early [return] of an error,
    [inr] the slice of Slack IDs once the loop has run through. *)
Fixpoint Add_range (index : nat) (emails : list string) (slackIds : list string)
    : M (error + list string) :=
  match emails with
  | [] => ret (inr slackIds)
  | email :: rest =>
      let* '(user, err) := remote_call (CallGetUserByEmail email)
                                  (λ cl, GetUserByEmail cl email) in
      match err with
      | Some e =>
          ret (inl (fmt_Errorf
                 ("slack.conversation.add.getuserbyemail(" +:+ email +:+ ") -> ") e))
      | None =>
          let* user := deref user in
          let slackIds := <[index := ID user]> slackIds in
          let* _ := cache_assign email (ID user) in
          Add_range (S index) rest slackIds
      end
  end.

(** [Add]: invite the emails to the conversation. *)
Definition Add (emails : list string) : M (option error) :=
  let slackIds := replicate (length emails) "" in
  let* r := Add_range 0 emails slackIds in
  match r with
  | inl e => ret (Some e)
  | inr slackIds =>
      let* c := self in
      let* err := remote_call (CallInviteUsersToConversation (conversationName c) slackIds)
                         (λ cl, InviteUsersToConversation cl (conversationName c) slackIds) in
      match err with
      | Some e =>
          let* _ := set_cache None in
          ret (Some (fmt_Errorf
                 ("slack.conversation.add.inviteuserstoconversation("
                    +:+ conversationName c +:+ ", ...) -> ") e))
      | None => ret None
      end
  end.

(** The [range] loop of [Remove]. *)
Fixpoint Remove_range (emails : list string) : M (option error) :=
  match emails with
  | [] => ret None
  | email :: rest =>
      let* c := self in
      let user := map_index (cache c) email in
      let* err := remote_call (CallKickUserFromConversation (conversationName c) user)
                         (λ cl, KickUserFromConversation cl (conversationName c) user) in
      match err with
      | Some e =>
          ret (Some (fmt_Errorf
                 ("slack.conversation.remove.kickuserfromconversation("
                    +:+ conversationName c +:+ ", " +:+ map_index (cache c) email
                    +:+ ") -> ") e))
      | None =>
          let* _ := cache_delete email in
          let* _ := time_Sleep 1 in
          Remove_range rest
      end
  end.

(** [Remove]: kick the emails from the conversation. *)
Definition Remove (emails : list string) : M (option error) :=
  let* c := self in
  if decide (map_len (cache c) = 0) then
    ret (Some (fmt_Errorf "slack.conversation.remove -> " ErrCacheEmpty))
  else Remove_range emails.

End Operations.

(** ** What the remote does: the behaviours the properties quantify over *)

Section Behaviours.
Context {St : Type}.
Variable cl : iSlackConversation St.
Variable channel : string.

(** The request [getListOfSlackUsernames] sends for a cursor. *)
Definition page_request (cursor : string) : GetUsersInConversationParameters :=
  {| ChannelID := channel; Cursor := cursor; Limit := 50 |}.

(** [Listing cur s pages cur' s']: asked for the page at [cur] in state
    [s], and then for each page at the cursor the page before returned, the
    remote serves [pages] (each with the cursor it returned) without error
    and with a non-empty cursor; [cur'] is the cursor of the next request
    and [s'] the state then. *)
Fixpoint Listing (cur : string) (s : St) (pages : list (list string * string))
    (cur' : string) (s' : St) : Prop :=
  match pages with
  | [] => cur' = cur ∧ s' = s
  | (page, next) :: rest =>
      let '(resp, s1) := GetUsersInConversation cl (page_request cur) s in
      resp = (page, next, None) ∧ next ≠ "" ∧ Listing next s1 rest cur' s'
  end.

(** The cursors requested while [pages] are served from [cur]. *)
Fixpoint requested (cur : string) (pages : list (list string * string)) : list string :=
  match pages with
  | [] => []
  | (_, next) :: rest => cur :: requested next rest
  end.

(** [Resolves emails s users s']: looked up one after the other from state
    [s], every email resolves, the i-th to the i-th of [users]. *)
Fixpoint Resolves (emails : list string) (s : St) (users : list User) (s' : St) : Prop :=
  match emails, users with
  | [], [] => s' = s
  | email :: emails', user :: users' =>
      let '(resp, s1) := GetUserByEmail cl email s in
      resp = (Some user, None) ∧ Resolves emails' s1 users' s'
  | _, _ => False
  end.

(** [Kicks ids s s']: the removals of [ids], one after the other from state
    [s], all succeed. *)
Fixpoint Kicks (ids : list string) (s s' : St) : Prop :=
  match ids with
  | [] => s' = s
  | id :: rest =>
      let '(err, s1) := KickUserFromConversation cl channel id s in
      err = None ∧ Kicks rest s1 s'
  end.

End Behaviours.

(** The identifier [Remove] sends for each email: the cache is read when the
    email's turn comes, after the entries of the emails before it are gone. *)
Fixpoint kick_ids (m : GoMap) (emails : list string) : list string :=
  match emails with
  | [] => []
  | email :: rest => map_index m email :: kick_ids (map_delete m email) rest
  end.

(** The cache after the entries of [emails] are deleted. *)
Definition evict (m : GoMap) (emails : list string) : GoMap :=
  foldl map_delete m emails.

(** The cache after [Get] has recorded the users it kept. *)
Definition record_users (g : gmap string string) (users : list User) : gmap string string :=
  foldl (λ g u, <[Email (Profile u) := ID u]> g) g users.

(** The cache after [Add] has recorded the users it resolved. *)
Definition record_pairs (g : gmap string string) (pairs : list (string * string))
    : gmap string string :=
  foldl (λ g p, <[p.1 := p.2]> g) g pairs.

(** The users [Get] keeps. *)
Definition humans (users : list User) : list User :=
  filter (λ u, IsBot u = false) users.

(** The world after some seconds of sleep. *)
Definition asleep {St} (w : World St) (n : nat) : World St :=
  {| remote := remote w; calls := calls w; slept := slept w + n |}.

(** The world after further calls. *)
Definition after {St} (w : World St) (s : St) (cs : list Call) : World St :=
  {| remote := s; calls := calls w ++ cs; slept := slept w |}.

(** ** Derived notions used in the statements *)

(** The calls of the pagination loop for a list of cursors. *)
Definition page_calls (channel : string) (cursors : list string) : list Call :=
  map (λ k, CallGetUsersInConversation (page_request channel k)) cursors.

(** The emails of a list of users, in order. *)
Definition emails_of (users : list User) : list string :=
  map (λ u, Email (Profile u)) users.

(** [slackIds[index] = id] for successive indices. *)
Fixpoint store_at (index : nat) (ids : list string) (slackIds : list string) : list string :=
  match ids with
  | [] => slackIds
  | id :: rest => store_at (S index) rest (<[index := id]> slackIds)
  end.

(** The removal calls for a list of identifiers. *)
Definition kick_calls (channel : string) (ids : list string) : list Call :=
  CallKickUserFromConversation channel <$> ids.

(** The error [Remove] returns when a removal fails. *)
Definition kick_error (channel id : string) (e : error) : error :=
  fmt_Errorf ("slack.conversation.remove.kickuserfromconversation("
                +:+ channel +:+ ", " +:+ id +:+ ") -> ") e.

(** The cache of the adapter at the end of a run. *)
Definition cache_after {St A} (run : Outcome A * Conversation St * World St) : GoMap :=
  cache run.1.2.

(** ** A small Slack workspace to run the adapter against *)

Module Fake.

Definition user (id email : string) (bot : bool) : User :=
  {| ID := id; IsBot := bot; Profile := {| Email := email |} |}.

Definition alice := user "U1" "a@x.com" false.
Definition bob := user "U2" "b@x.com" false.
Definition carol := user "U3" "c@x.com" false.
Definition deploybot := user "B1" "bot@x.com" true.

Definition directory : list User := [alice; deploybot; bob; carol].

Definition by_id (id : string) : option User :=
  head (filter (λ u, ID u = id) directory).

Definition by_email (email : string) : option User :=
  head (filter (λ u, Email (Profile u) = email) directory).

(** The state is the list of member IDs of the one conversation ["C123"];
    the listing serves two members per page. *)
Definition slack : iSlackConversation (list string) := {|
  GetUsersInConversation p s :=
    if decide (ChannelID p = "C123") then
      if decide (Cursor p = "") then
        ((take 2 s, if decide (length s ≤ 2)%nat then "" else "page2", None), s)
      else if decide (Cursor p = "page2") then
        ((take 2 (drop 2 s), if decide (length s ≤ 4)%nat then "" else "page3", None), s)
      else if decide (Cursor p = "page3") then ((drop 4 s, "", None), s)
      else (([], "", Some (errors_New "invalid_cursor")), s)
    else (([], "", Some (errors_New "channel_not_found")), s);
  GetUsersInfo ids s :=
    match mapM by_id ids with
    | Some us => ((Some us, None), s)
    | None => ((None, Some (errors_New "user_not_found")), s)
    end;
  GetUserByEmail email s :=
    match by_email email with
    | Some u => ((Some u, None), s)
    | None => ((None, Some (errors_New "users_not_found")), s)
    end;
  InviteUsersToConversation ch ids s :=
    if decide (ch = "C123") then
      if decide (Exists (λ id, id ∈ s) ids)
      then (Some (errors_New "already_in_channel"), s)
      else (None, s ++ ids)
    else (Some (errors_New "channel_not_found"), s);
  KickUserFromConversation ch id s :=
    if decide (ch = "C123") then
      if decide (id ∈ s) then (None, filter (λ x, x ≠ id) s)
      else (Some (errors_New "not_in_channel"), s)
    else (Some (errors_New "channel_not_found"), s)
|}.

(** A remote whose listing never hands out an empty cursor. *)
Definition endless : iSlackConversation unit := {|
  GetUsersInConversation p s := ((["U1"], "more", None), s);
  GetUsersInfo ids s := ((Some [], None), s);
  GetUserByEmail email s := ((None, Some (errors_New "users_not_found")), s);
  InviteUsersToConversation ch ids s := (None, s);
  KickUserFromConversation ch id s := (None, s)
|}.

Definition world {St} (s : St) : World St := {| remote := s; calls := []; slept := 0 |}.

(** A test double that answers the listing but returns neither a result nor
    an error from its lookups. *)
Definition silent : iSlackConversation unit := {|
  GetUsersInConversation p s := ((["U1"], "", None), s);
  GetUsersInfo ids s := ((None, None), s);
  GetUserByEmail email s := ((None, None), s);
  InviteUsersToConversation ch ids s := (None, s);
  KickUserFromConversation ch id s := (None, s)
|}.

End Fake.

(** An adapter that has learnt alice and bob. *)
Definition knows_alice_and_bob : Conversation (list string) :=
  with_cache (New Fake.slack "C123")
    (Some (<["a@x.com" := "U1"]> (<["b@x.com" := "U2"]> ∅))).

(** ** The read-only on-call adapter *)

Module OnCall.

(** One call through the schedule client. *)
Inductive ScheduleCall : Type :=
| CallGetOnCalls (scheduleIdentifier : string).

(** The schedule client of the tests: its only method is [GetOnCalls]. *)
Record iOpsgenieSchedule (St : Type) : Type := {
  GetOnCalls : string → St → (option (list string) * option error) * St
}.

Record OnCall (St : Type) : Type := {
  client : iOpsgenieSchedule St;
  scheduleID : string
}.

(** The remote state and the calls the client has received
    ([scheduleClient.Calls] in the tests). *)
Record ScheduleWorld (St : Type) : Type := {
  remote : St;
  Calls : list ScheduleCall
}.
Arguments Calls {St} _.

Section ReadOnly.
Context {St : Type}.

(** Modelled from the spec: [Add] of the on-call adapter, whose source is
    missing (only its test [TestOnCall_Add] is there).  Following the spec,
    it fails with a ReadOnly error, wrapped behind a prefix that names the
    operation as every error of the adapters is, and performs no remote
    call. *)
Definition Add (emails : list string) (a : OnCall St) (w : ScheduleWorld St)
    : option error * OnCall St * ScheduleWorld St :=
  (Some (fmt_Errorf "opsgenie.oncall.add -> " ErrReadOnly), a, w).

(** Modelled from the spec: [Remove] of the on-call adapter, whose source is
    missing (only its test [TestOnCall_Remove] is there).  Following the
    spec, it fails with a ReadOnly error, wrapped behind a prefix that names
    the operation, and performs no remote call. *)
Definition Remove (emails : list string) (a : OnCall St) (w : ScheduleWorld St)
    : option error * OnCall St * ScheduleWorld St :=
  (Some (fmt_Errorf "opsgenie.oncall.remove -> " ErrReadOnly), a, w).

End ReadOnly.

End OnCall.

(** ** The constructor with its options, and the errors by name *)

(** The [Conversation] struct with the [logger] field that the methods'
    model leaves out: [L] is the type of loggers. *)
Record WithLogger (St L : Type) : Type := {
  adapter : Conversation St;
  logger : L
}.
Arguments adapter {St L} _.
Arguments logger {St L} _.

(** [OptionLogger]: an option that sets a custom logger. *)
Definition OptionLogger {St L} (l : L) : WithLogger St L → WithLogger St L :=
  λ conversation, {| adapter := adapter conversation; logger := l |}.

(** [New] with its option functions, applied in the order given to the
    freshly built adapter; [default] is the logger [New] creates itself. *)
Definition New_with_options {St L} (default : L) (cl : iSlackConversation St)
    (channelName : string) (optsFn : list (WithLogger St L → WithLogger St L))
    : WithLogger St L :=
  foldl (λ conversation fn, fn conversation)
        {| adapter := New cl channelName; logger := default |} optsFn.

(** The error of [getListOfSlackUsernames] for a failed page, as [Get]
    returns it. *)
Definition page_error (channel : string) (e : error) : error :=
  fmt_Errorf "slack.conversation.get.getlistofslackusernames -> "
    (fmt_Errorf ("getusersinconversation(" +:+ channel +:+ ") -> ") e).

(** The error of [Get] for a failed resolution of the users. *)
Definition info_error (e : error) : error :=
  fmt_Errorf "slack.conversation.get.getusersinfo -> " e.

(** The error of [Add] for a failed lookup of an email. *)
Definition lookup_error (email : string) (e : error) : error :=
  fmt_Errorf ("slack.conversation.add.getuserbyemail(" +:+ email +:+ ") -> ") e.

(** The error of [Add] for a failed invite. *)
Definition invite_error (channel : string) (e : error) : error :=
  fmt_Errorf ("slack.conversation.add.inviteuserstoconversation("
                +:+ channel +:+ ", ...) -> ") e.

(** The error of [Remove] when the guard on the cache fails. *)
Definition guard_error : error :=
  fmt_Errorf "slack.conversation.remove -> " ErrCacheEmpty.

(** The calls with which the methods read from the remote. *)
Definition reading (c : Call) : bool :=
  match c with
  | CallGetUsersInConversation _ | CallGetUsersInfo _ => true
  | _ => false
  end.

(** * Properties *)

(** ** Bookkeeping lemmas *)

Section Bookkeeping.
Context {St : Type}.
Implicit Types (c : Conversation St) (w : World St).

Lemma after_nil w : after w (remote w) [] = w.
Proof. destruct w; unfold after; simpl. by rewrite app_nil_r. Qed.

Lemma after_after w s1 cs1 s2 cs2 :
  after (after w s1 cs1) s2 cs2 = after w s2 (cs1 ++ cs2).
Proof. unfold after; simpl. by rewrite app_assoc. Qed.

Lemma with_cache_same c : with_cache c (cache c) = c.
Proof. by destruct c. Qed.

Lemma with_cache_twice c m1 m2 : with_cache (with_cache c m1) m2 = with_cache c m2.
Proof. done. Qed.

Lemma bind_returned {A B} (m : M A) (k : A → M B) c w a c' w' :
  m c w = (Returned a, c', w') → bind m k c w = k a c' w'.
Proof. intros H. unfold bind. by rewrite H. Qed.

End Bookkeeping.

(** ** Runs on the fake workspace *)

Example Error_of_guard :
  Error (fmt_Errorf "slack.conversation.remove -> " ErrCacheEmpty)
  = "slack.conversation.remove -> cache is empty - run Get()".
Proof. reflexivity. Qed.

Example errors_Is_sees_through_wrapping :
  errors_Is (fmt_Errorf "a -> " (fmt_Errorf "b -> " ErrCacheEmpty)) ErrCacheEmpty = true
  ∧ errors_Is (fmt_Errorf "a -> " ErrCacheEmpty) ErrReadOnly = false.
Proof. by vm_compute. Qed.

(** Five members on three pages; the bot is dropped. *)
Example Get_three_pages :
  (Get 4 (New Fake.slack "C123") (Fake.world ["U1"; "B1"; "U2"; "U3"; "B1"])).1 =
    (Returned (Some ["a@x.com"; "b@x.com"; "c@x.com"], None),
     with_cache (New Fake.slack "C123")
       (Some (<["c@x.com" := "U3"]> (<["b@x.com" := "U2"]> (<["a@x.com" := "U1"]> ∅))))).
Proof. by vm_compute. Qed.

(** With a budget of two iterations the third page is not reached. *)
Example Get_out_of_fuel :
  (Get 2 (New Fake.slack "C123") (Fake.world ["U1"; "B1"; "U2"; "U3"; "B1"])).1.1
  = OutOfFuel.
Proof. by vm_compute. Qed.

(** The same email twice: the second removal is sent with the zero value,
    as the first has deleted the entry. *)
Example Remove_same_email_twice :
  Remove ["a@x.com"; "a@x.com"] knows_alice_and_bob (Fake.world ["U1"; "U2"]) =
    (Returned (Some (kick_error "C123" "" (errors_New "not_in_channel"))),
     with_cache knows_alice_and_bob (Some {["b@x.com" := "U2"]}),
     asleep (after (Fake.world ["U1"; "U2"]) ["U2"] (kick_calls "C123" ["U1"; ""])) 1).
Proof. by vm_compute. Qed.

(** An email the adapter has not learnt is removed with the zero value. *)
Example Remove_unknown_email :
  (Remove ["c@x.com"] knows_alice_and_bob (Fake.world ["U1"; "U3"])).2 =
    after (Fake.world ["U1"; "U3"]) ["U1"; "U3"] (kick_calls "C123" [""]).
Proof. by vm_compute. Qed.

(** [TestOnCall_Add] and [TestOnCall_Remove]. *)
Example TestOnCall_Add_Remove (cl : OnCall.iOpsgenieSchedule unit) :
  let adapter := {| OnCall.client := cl; OnCall.scheduleID := "test" |} in
  let world := {| OnCall.remote := (); OnCall.Calls := [] |} in
  (∃ e, (OnCall.Add ["example@bar.com"] adapter world).1.1 = Some e
        ∧ errors_Is e ErrReadOnly = true)
  ∧ OnCall.Calls (OnCall.Add ["example@bar.com"] adapter world).2 = []
  ∧ (∃ e, (OnCall.Remove ["example@bar.com"] adapter world).1.1 = Some e
          ∧ errors_Is e ErrReadOnly = true)
  ∧ OnCall.Calls (OnCall.Remove ["example@bar.com"] adapter world).2 = [].
Proof. repeat split; by eexists. Qed.

(** ** The pagination loop *)

Section Pagination.
Context {St : Type}.
Implicit Types (c : Conversation St) (w : World St).

Lemma loop_step fuel cur users c w :
  getListOfSlackUsernames_loop (S fuel) cur users c w =
  let '(resp, s) :=
    GetUsersInConversation (client c) (page_request (conversationName c) cur) (remote w) in
  let w1 := after w s (page_calls (conversationName c) [cur]) in
  match resp with
  | (_, _, Some e) =>
      (Returned ([], Some (fmt_Errorf
         ("getusersinconversation(" +:+ conversationName c +:+ ") -> ") e)), c, w1)
  | (page, next, None) =>
      if decide (next = "") then (Returned (users ++ page, None), c, w1)
      else getListOfSlackUsernames_loop fuel next (users ++ page) c w1
  end.
Proof.
  cbn [getListOfSlackUsernames_loop]. unfold bind at 1, self.
  unfold bind at 1, remote_call, page_request.
  destruct (GetUsersInConversation _ _ _) as [[[page next] [e|]] s]; try done.
  by case_decide.
Qed.

(** While the remote serves pages with non-empty cursors, the loop follows
    them: one request per page, each at the cursor the page before gave. *)
Lemma loop_listing c pages : ∀ w cur users cur' s' fuel,
  Listing (client c) (conversationName c) cur (remote w) pages cur' s' →
  getListOfSlackUsernames_loop (length pages + fuel) cur users c w =
  getListOfSlackUsernames_loop fuel cur' (users ++ concat (pages.*1)) c
    (after w s' (page_calls (conversationName c) (requested cur pages))).
Proof.
  induction pages as [|[page next] rest IH]; intros w cur users cur' s' fuel HL.
  - destruct HL as [-> ->]. cbn. by rewrite app_nil_r, after_nil.
  - cbn [Listing] in HL. cbn [length Nat.add]. rewrite loop_step.
    destruct (GetUsersInConversation _ _ _) as [resp s1].
    destruct HL as (-> & Hne & HL). case_decide; [done|].
    rewrite (IH (after w s1 _) next _ cur' s' fuel HL).
    cbn. by rewrite after_after, <- app_assoc.
Qed.

Lemma loop_last fuel cur users c w page s :
  GetUsersInConversation (client c) (page_request (conversationName c) cur) (remote w)
    = ((page, "", None), s) →
  getListOfSlackUsernames_loop (S fuel) cur users c w =
    (Returned (users ++ page, None), c, after w s (page_calls (conversationName c) [cur])).
Proof. intros H. rewrite loop_step, H. by case_decide. Qed.

Lemma loop_error fuel cur users c w page next e s :
  GetUsersInConversation (client c) (page_request (conversationName c) cur) (remote w)
    = ((page, next, Some e), s) →
  getListOfSlackUsernames_loop (S fuel) cur users c w =
    (Returned ([], Some (fmt_Errorf
       ("getusersinconversation(" +:+ conversationName c +:+ ") -> ") e)), c,
     after w s (page_calls (conversationName c) [cur])).
Proof. intros H. by rewrite loop_step, H. Qed.

(** A run of the loop that returns users has been served pages with
    non-empty cursors and then one page with an empty cursor. *)
Lemma loop_returned fuel : ∀ cur users c w us c' w',
  getListOfSlackUsernames_loop fuel cur users c w = (Returned (us, None), c', w') →
  ∃ pages cur' s' page,
    Listing (client c) (conversationName c) cur (remote w) pages cur' s' ∧
    GetUsersInConversation (client c) (page_request (conversationName c) cur') s'
      = ((page, "", None), remote w') ∧
    length pages < fuel ∧
    us = users ++ concat (pages.*1) ++ page ∧
    c' = c ∧
    w' = after w (remote w') (page_calls (conversationName c) (requested cur pages ++ [cur'])).
Proof.
  induction fuel as [|fuel IH]; intros cur users c w us c' w' H; [done|].
  rewrite loop_step in H.
  destruct (GetUsersInConversation _ _ _) as [[[page next] [e|]] s1] eqn:E; [done|].
  case_decide as Hn.
  - subst next. injection H as <- <- <-.
    exists [], cur, (remote w), page. cbn. rewrite E. repeat split; auto with lia.
  - apply IH in H as (pages & cur' & s' & page' & HL & Hlast & Hlen & -> & -> & Hw).
    cbn in HL, Hw.
    exists ((page, next) :: pages), cur', s', page'. cbn [Listing].
    rewrite E. repeat split; auto.
    + cbn. lia.
    + cbn. by rewrite <- !app_assoc.
    + rewrite Hw at 1. by rewrite after_after.
Qed.

(** The whole loop on a listing that ends with an empty cursor. *)
Lemma getListOfSlackUsernames_listed c w pages cur s page s' fuel :
  Listing (client c) (conversationName c) "" (remote w) pages cur s →
  GetUsersInConversation (client c) (page_request (conversationName c) cur) s
    = ((page, "", None), s') →
  length pages < fuel →
  getListOfSlackUsernames fuel c w =
    (Returned (concat (pages.*1) ++ page, None), c,
     after w s' (page_calls (conversationName c) (requested "" pages ++ [cur]))).
Proof.
  intros HL Hlast Hfuel. unfold getListOfSlackUsernames.
  replace fuel with (length pages + S (fuel - S (length pages))) by lia.
  rewrite (loop_listing c pages w "" [] cur s _ HL).
  rewrite (loop_last _ cur _ c _ page s'); [|done].
  unfold page_calls. by rewrite after_after, map_app.
Qed.

End Pagination.

Section PaginationProperties.
Context {St : Type}.
Implicit Types (c : Conversation St) (w : World St).

Lemma requested_first (cl : iSlackConversation St) channel pages cur s cur' s' :
  Listing cl channel cur s pages cur' s' → head (requested cur pages ++ [cur']) = Some cur.
Proof. destruct pages as [|[page next] rest]; cbn; [by intros [-> _]|done]. Qed.

(** C7.  The pagination loop of [getListOfSlackUsernames].
    (1) It asks for the first page with the empty cursor, for every further
    page with exactly the cursor the page before returned, and returns (all
    the users collected) right after the first page that comes with an empty
    cursor: no further request is made, whatever the remote still holds.
    (2) Conversely a run that returns users has met such a page: an empty
    cursor is the only way out of the loop with a result.
    (3) As long as the remote answers with non-empty cursors the loop keeps
    asking: after any number of such pages it has not returned. *)
Theorem getListOfSlackUsernames_pagination c w :
  (∀ pages cur s page s' fuel,
     Listing (client c) (conversationName c) "" (remote w) pages cur s →
     GetUsersInConversation (client c) (page_request (conversationName c) cur) s
       = ((page, "", None), s') →
     length pages < fuel →
     head (requested "" pages ++ [cur]) = Some "" ∧
     getListOfSlackUsernames fuel c w =
       (Returned (concat (pages.*1) ++ page, None), c,
        after w s' (page_calls (conversationName c) (requested "" pages ++ [cur]))))
  ∧ (∀ fuel users c' w',
     getListOfSlackUsernames fuel c w = (Returned (users, None), c', w') →
     ∃ pages cur s page,
       Listing (client c) (conversationName c) "" (remote w) pages cur s ∧
       GetUsersInConversation (client c) (page_request (conversationName c) cur) s
         = ((page, "", None), remote w') ∧
       length pages < fuel ∧
       users = concat (pages.*1) ++ page ∧
       w' = after w (remote w')
              (page_calls (conversationName c) (requested "" pages ++ [cur])))
  ∧ (∀ pages cur s,
     Listing (client c) (conversationName c) "" (remote w) pages cur s →
     getListOfSlackUsernames (length pages) c w =
       (OutOfFuel, c, after w s (page_calls (conversationName c) (requested "" pages)))).
Proof.
  repeat split.
  - by eapply requested_first.
  - by apply getListOfSlackUsernames_listed with s.
  - intros fuel users c' w' H.
    apply loop_returned in H as (pages & cur & s & page & HL & Hlast & Hlen & -> & _ & Hw).
    by exists pages, cur, s, page.
  - intros pages cur s HL. unfold getListOfSlackUsernames.
    rewrite <- (Nat.add_0_r (length pages)) at 1.
    by rewrite (loop_listing c pages w "" [] cur s 0 HL).
Qed.

End PaginationProperties.

(** On the fake workspace with three members the loop asks twice. *)
Lemma getListOfSlackUsernames_pagination_witness :
  getListOfSlackUsernames 5 (New Fake.slack "C123") (Fake.world ["U1"; "B1"; "U2"]) =
    (Returned (["U1"; "B1"; "U2"], None), New Fake.slack "C123",
     after (Fake.world ["U1"; "B1"; "U2"]) ["U1"; "B1"; "U2"]
       (page_calls "C123" [""; "page2"]))
  ∧ getListOfSlackUsernames 3 (New Fake.endless "C123") (Fake.world ()) =
    (OutOfFuel, New Fake.endless "C123",
     after (Fake.world ()) () (page_calls "C123" [""; "more"; "more"])).
Proof.
  split.
  - apply (proj1 (getListOfSlackUsernames_pagination
                    (New Fake.slack "C123") (Fake.world ["U1"; "B1"; "U2"]))
             [(["U1"; "B1"], "page2")] "page2" ["U1"; "B1"; "U2"] ["U2"]
             ["U1"; "B1"; "U2"] 5).
    + vm_compute. by repeat split.
    + reflexivity.
    + simpl. lia.
  - apply (proj2 (proj2 (getListOfSlackUsernames_pagination
                    (New Fake.endless "C123") (Fake.world ())))
             [(["U1"], "more"); (["U1"], "more"); (["U1"], "more")] "more" ()).
    vm_compute. by repeat split.
Defined.

(** ** [Get] *)

Section CacheRecording.
Implicit Types (g : gmap string string) (us : list User).

Lemma record_users_snoc g us u :
  record_users g (us ++ [u]) = <[Email (Profile u) := ID u]> (record_users g us).
Proof. unfold record_users. by rewrite foldl_app. Qed.

(** An email none of the recorded users has keeps the entry it had. *)
Lemma record_users_other g us email :
  email ∉ emails_of us → record_users g us !! email = g !! email.
Proof.
  induction us as [|u us IH] using rev_ind; [done|].
  unfold emails_of. rewrite map_app, not_elem_of_app. cbn.
  intros [Hus Hu]. rewrite record_users_snoc, lookup_insert_ne; [by apply IH|].
  intros <-. apply Hu. left.
Qed.

(** Every email of a recorded user is mapped to the ID of a user with that
    email. *)
Lemma record_users_some g us email :
  email ∈ emails_of us →
  ∃ u, u ∈ us ∧ Email (Profile u) = email ∧ record_users g us !! email = Some (ID u).
Proof.
  induction us as [|u us IH] using rev_ind; [by intros ?%elem_of_nil|].
  intros Hin. rewrite record_users_snoc.
  destruct (decide (Email (Profile u) = email)) as [<-|Hne].
  - exists u. rewrite lookup_insert_eq. split; [|done].
    apply elem_of_app. right. left.
  - unfold emails_of in Hin. rewrite map_app, elem_of_app in Hin. cbn in Hin.
    destruct Hin as [Hin|Hin]; [|by apply list_elem_of_singleton in Hin].
    destruct (IH Hin) as (v & Hv & Hemail & Hlook).
    exists v. rewrite lookup_insert_ne; [|done]. split; [|done].
    apply elem_of_app. by left.
Qed.

(** When the email determines the user, the user's own ID is recorded. *)
Lemma record_users_own g us u :
  u ∈ us →
  (∀ v, v ∈ us → Email (Profile v) = Email (Profile u) → ID v = ID u) →
  record_users g us !! Email (Profile u) = Some (ID u).
Proof.
  induction us as [|u' us IH] using rev_ind; [by intros ?%elem_of_nil|].
  intros Hin Hsame. rewrite record_users_snoc.
  destruct (decide (Email (Profile u') = Email (Profile u))) as [Heq|Hne].
  - rewrite Heq, lookup_insert_eq. f_equal. apply Hsame; [|done].
    apply elem_of_app. right. left.
  - rewrite lookup_insert_ne; [|done]. apply IH.
    + apply elem_of_app in Hin as [Hin|Hin]; [done|].
      apply list_elem_of_singleton in Hin. by subst.
    + intros v Hv. apply Hsame. apply elem_of_app. by left.
Qed.

Lemma elem_of_humans us u : u ∈ humans us ↔ u ∈ us ∧ IsBot u = false.
Proof. unfold humans. rewrite list_elem_of_filter. tauto. Qed.

End CacheRecording.

Section GetLemmas.
Context {St : Type}.
Implicit Types (c : Conversation St) (w : World St).

Lemma cache_assign_some c w g k v :
  cache c = Some g →
  cache_assign k v c w = (Returned (), with_cache c (Some (<[k := v]> g)), w).
Proof. intros H. unfold cache_assign. by rewrite H. Qed.

Lemma cache_assign_nil c w k v :
  cache c = None → cache_assign k v c w = (Panicked nil_map_panic, c, w).
Proof. intros H. unfold cache_assign. by rewrite H. Qed.

(** With an allocated cache the loop keeps the humans and records them. *)
Lemma Get_range_allocated users : ∀ emails c w g,
  cache c = Some g →
  Get_range users emails c w =
    (Returned (emails ++ emails_of (humans users)),
     with_cache c (Some (record_users g (humans users))), w).
Proof.
  induction users as [|u users IH]; intros emails c w g Hc.
  - cbn. by rewrite app_nil_r, <- Hc, with_cache_same.
  - cbn [Get_range]. unfold humans. destruct (IsBot u) eqn:Hbot; cbn [negb].
    + rewrite filter_cons_False by (by rewrite Hbot). by apply IH.
    + rewrite filter_cons_True by done.
      rewrite (bind_returned _ _ _ _ _ _ _ (cache_assign_some c w g _ _ Hc)).
      rewrite (IH _ _ _ (<[Email (Profile u) := ID u]> g)) by done.
      cbn. by rewrite <- app_assoc.
Qed.

(** Without humans the loop leaves everything as it is. *)
Lemma Get_range_bots users : ∀ emails c w,
  humans users = [] → Get_range users emails c w = (Returned emails, c, w).
Proof.
  induction users as [|u users IH]; intros emails c w Hh; [done|].
  cbn [Get_range]. unfold humans in Hh. destruct (IsBot u) eqn:Hbot; cbn [negb].
  - rewrite filter_cons_False in Hh by (by rewrite Hbot). by apply IH.
  - by rewrite filter_cons_True in Hh.
Qed.

(** On a nil cache the first human makes the loop panic. *)
Lemma Get_range_nil users : ∀ emails c w,
  cache c = None → humans users ≠ [] →
  Get_range users emails c w = (Panicked nil_map_panic, c, w).
Proof.
  induction users as [|u users IH]; intros emails c w Hc Hh; [done|].
  cbn [Get_range]. unfold humans in Hh. destruct (IsBot u) eqn:Hbot; cbn [negb].
  - rewrite filter_cons_False in Hh by (by rewrite Hbot). by apply IH.
  - unfold bind. by rewrite cache_assign_nil.
Qed.

(** [Get] once the listing has gone through. *)
Lemma Get_listed c w pages cur s page s1 fuel :
  Listing (client c) (conversationName c) "" (remote w) pages cur s →
  GetUsersInConversation (client c) (page_request (conversationName c) cur) s
    = ((page, "", None), s1) →
  length pages < fuel →
  Get fuel c w =
    let ids := concat (pages.*1) ++ page in
    let '(users, err, s2) := GetUsersInfo (client c) ids s1 in
    let w2 := after w s2 (page_calls (conversationName c) (requested "" pages ++ [cur])
                            ++ [CallGetUsersInfo ids]) in
    match err, users with
    | Some e, _ =>
        (Returned (None, Some (fmt_Errorf "slack.conversation.get.getusersinfo -> " e)), c, w2)
    | None, None => (Panicked nil_deref_panic, c, w2)
    | None, Some users =>
        match Get_range users [] c w2 with
        | (Returned emails, c', w') => (Returned (Some emails, None), c', w')
        | (Panicked msg, c', w') => (Panicked msg, c', w')
        | (OutOfFuel, c', w') => (OutOfFuel, c', w')
        end
    end.
Proof.
  intros HL Hlast Hfuel.
  pose proof (getListOfSlackUsernames_listed c w _ _ _ _ _ _ HL Hlast Hfuel) as Hget.
  unfold Get. rewrite (bind_returned _ _ _ _ _ _ _ Hget). cbn zeta.
  unfold bind at 1, remote_call. cbn [remote after].
  destruct (GetUsersInfo _ _ _) as [[users [e|]] s2]; cbn.
  - unfold ret, after. by rewrite <- app_assoc.
  - destruct users as [users|]; cbn; unfold after; rewrite <- app_assoc; [|done].
    unfold bind. by destruct (Get_range _ _ _ _) as [[[emails| |] c'] w'].
Qed.

End GetLemmas.

Section GetProperties.
Context {St : Type}.
Implicit Types (c : Conversation St) (w : World St).

(** C1.  When the listing runs through pages that end with an empty cursor
    and the users of all pages together are resolved, [Get] returns the
    emails of the resolved users that are not bots (here even in the order
    of the resolution) and writes email -> ID into the cache for each of
    them, in that order.  An email is returned only if a non-bot user has
    it; every returned email is cached with the ID of a non-bot user that has
    it, with the user's own ID where the email determines the user; and no
    other entry of the cache changes, so a bot adds nothing to either.
    A nil cache can take no entry: there the statement covers the runs
    without a non-bot user. *)
Theorem Get_returns_humans c w pages cur s page s1 users s2 fuel :
  Listing (client c) (conversationName c) "" (remote w) pages cur s →
  GetUsersInConversation (client c) (page_request (conversationName c) cur) s
    = ((page, "", None), s1) →
  GetUsersInfo (client c) (concat (pages.*1) ++ page) s1 = ((Some users, None), s2) →
  length pages < fuel →
  (cache c = None → humans users = []) →
  Get fuel c w =
    (Returned (Some (emails_of (humans users)), None),
     with_cache c ((λ g, record_users g (humans users)) <$> cache c),
     after w s2 (page_calls (conversationName c) (requested "" pages ++ [cur])
                   ++ [CallGetUsersInfo (concat (pages.*1) ++ page)]))
  ∧ (∀ email, email ∈ emails_of (humans users) ↔
              ∃ u, u ∈ users ∧ IsBot u = false ∧ Email (Profile u) = email)
  ∧ (∀ g, cache c = Some g →
       (∀ email, email ∈ emails_of (humans users) →
          ∃ u, u ∈ users ∧ IsBot u = false ∧ Email (Profile u) = email ∧
               record_users g (humans users) !! email = Some (ID u))
       ∧ (∀ u, u ∈ users → IsBot u = false →
            (∀ v, v ∈ users → IsBot v = false →
                  Email (Profile v) = Email (Profile u) → ID v = ID u) →
            record_users g (humans users) !! Email (Profile u) = Some (ID u))
       ∧ (∀ email, email ∉ emails_of (humans users) →
            record_users g (humans users) !! email = g !! email)).
Proof.
  intros HL Hlast Hinfo Hfuel Hnil. split; [|split].
  - rewrite (Get_listed c w pages cur s page s1 fuel HL Hlast Hfuel). cbn zeta.
    rewrite Hinfo. destruct (cache c) as [g|] eqn:Hc.
    + by rewrite (Get_range_allocated users [] c _ g Hc).
    + rewrite (Get_range_bots users [] c _ (Hnil eq_refl)), (Hnil eq_refl). cbn.
      by rewrite <- Hc, with_cache_same.
  - intros email. unfold emails_of. rewrite list_elem_of_fmap. split.
    + intros (u & -> & Hu). apply elem_of_humans in Hu as [Hu Hbot]. by exists u.
    + intros (u & Hu & Hbot & <-). exists u. by rewrite elem_of_humans.
  - intros g Hc. split; [|split].
    + intros email Hin.
      destruct (record_users_some g _ _ Hin) as (u & Hu & Hemail & Hlook).
      apply elem_of_humans in Hu as [Hu Hbot]. by exists u.
    + intros u Hu Hbot Hsame. apply record_users_own.
      * by rewrite elem_of_humans.
      * intros v [Hv Hvbot]%elem_of_humans. by apply Hsame.
    + apply record_users_other.
Qed.

(** C6.  A failing page, or a failing resolution of the users, makes [Get]
    return a nil slice with a wrapped error, and leaves the adapter (its
    cache included) exactly as it was. *)
Theorem Get_failure_keeps_cache c w pages cur s fuel :
  Listing (client c) (conversationName c) "" (remote w) pages cur s →
  length pages < fuel →
  (∀ page next e s1,
     GetUsersInConversation (client c) (page_request (conversationName c) cur) s
       = ((page, next, Some e), s1) →
     Get fuel c w =
       (Returned (None, Some
          (fmt_Errorf "slack.conversation.get.getlistofslackusernames -> "
             (fmt_Errorf ("getusersinconversation(" +:+ conversationName c +:+ ") -> ") e))),
        c,
        after w s1 (page_calls (conversationName c) (requested "" pages ++ [cur]))))
  ∧ (∀ page s1 users e s2,
     GetUsersInConversation (client c) (page_request (conversationName c) cur) s
       = ((page, "", None), s1) →
     GetUsersInfo (client c) (concat (pages.*1) ++ page) s1 = ((users, Some e), s2) →
     Get fuel c w =
       (Returned (None, Some (fmt_Errorf "slack.conversation.get.getusersinfo -> " e)),
        c,
        after w s2 (page_calls (conversationName c) (requested "" pages ++ [cur])
                      ++ [CallGetUsersInfo (concat (pages.*1) ++ page)]))).
Proof.
  intros HL Hfuel. split.
  - intros page next e s1 Hpage. unfold Get, getListOfSlackUsernames.
    replace fuel with (length pages + S (fuel - S (length pages))) by lia.
    unfold bind. rewrite (loop_listing c pages w "" [] cur s _ HL).
    rewrite (loop_error _ cur _ c _ page next e s1) by done.
    unfold ret, page_calls. by rewrite after_after, map_app.
  - intros page s1 users e s2 Hpage Hinfo.
    rewrite (Get_listed c w pages cur s page s1 fuel HL Hpage Hfuel). cbn zeta.
    by rewrite Hinfo.
Qed.

End GetProperties.

(** On the fake workspace: two humans and a bot on two pages. *)
Lemma Get_returns_humans_witness :
  Get 5 (New Fake.slack "C123") (Fake.world ["U1"; "B1"; "U2"]) =
    (Returned (Some ["a@x.com"; "b@x.com"], None),
     with_cache (New Fake.slack "C123")
       (Some (<["b@x.com" := "U2"]> (<["a@x.com" := "U1"]> ∅))),
     after (Fake.world ["U1"; "B1"; "U2"]) ["U1"; "B1"; "U2"]
       (page_calls "C123" [""; "page2"] ++ [CallGetUsersInfo ["U1"; "B1"; "U2"]])).
Proof.
  apply (Get_returns_humans (New Fake.slack "C123") (Fake.world ["U1"; "B1"; "U2"])
           [(["U1"; "B1"], "page2")] "page2" ["U1"; "B1"; "U2"] ["U2"]
           ["U1"; "B1"; "U2"] [Fake.alice; Fake.deploybot; Fake.bob]
           ["U1"; "B1"; "U2"] 5).
  - vm_compute. by repeat split.
  - reflexivity.
  - reflexivity.
  - simpl. lia.
  - discriminate.
Defined.

(** On the fake workspace: an unknown channel fails the first page, an
    unknown member fails the resolution. *)
Lemma Get_failure_keeps_cache_witness :
  Get 5 (New Fake.slack "C999") (Fake.world ["U1"]) =
    (Returned (None, Some
       (fmt_Errorf "slack.conversation.get.getlistofslackusernames -> "
          (fmt_Errorf "getusersinconversation(C999) -> " (errors_New "channel_not_found")))),
     New Fake.slack "C999",
     after (Fake.world ["U1"]) ["U1"] (page_calls "C999" [""]))
  ∧ Get 5 (New Fake.slack "C123") (Fake.world ["U1"; "U404"]) =
    (Returned (None, Some (fmt_Errorf "slack.conversation.get.getusersinfo -> "
                             (errors_New "user_not_found"))),
     New Fake.slack "C123",
     after (Fake.world ["U1"; "U404"]) ["U1"; "U404"]
       (page_calls "C123" [""] ++ [CallGetUsersInfo ["U1"; "U404"]])).
Proof.
  split.
  - apply (proj1 (Get_failure_keeps_cache (New Fake.slack "C999") (Fake.world ["U1"])
                    [] "" ["U1"] 5 (conj eq_refl eq_refl) ltac:(simpl; lia))
             [] "" (errors_New "channel_not_found") ["U1"]).
    reflexivity.
  - apply (proj2 (Get_failure_keeps_cache (New Fake.slack "C123") (Fake.world ["U1"; "U404"])
                    [] "" ["U1"; "U404"] 5 (conj eq_refl eq_refl) ltac:(simpl; lia))
             ["U1"; "U404"] ["U1"; "U404"] None (errors_New "user_not_found")
             ["U1"; "U404"]).
    + reflexivity.
    + reflexivity.
Defined.

(** ** [Add] *)

Lemma store_at_middle ids : ∀ front zeros back,
  length zeros = length ids →
  store_at (length front) ids (front ++ zeros ++ back) = front ++ ids ++ back.
Proof.
  induction ids as [|id ids IH]; intros front zeros back Hlen.
  - by destruct zeros.
  - destruct zeros as [|z zeros]; [done|]. cbn [store_at].
    rewrite <- (Nat.add_0_r (length front)) at 2. rewrite insert_app_r. cbn [app].
    change (<[0:=id]> (z :: zeros ++ back)) with (id :: zeros ++ back).
    replace (S (length front)) with (length (front ++ [id]))
      by (rewrite length_app; cbn; lia).
    replace (front ++ id :: zeros ++ back) with ((front ++ [id]) ++ zeros ++ back)
      by (by rewrite <- app_assoc).
    rewrite IH by (cbn in Hlen; lia). by rewrite <- app_assoc.
Qed.

(** Filling a fresh slice of the right length yields the IDs themselves. *)
Lemma store_at_fresh ids : store_at 0 ids (replicate (length ids) "") = ids.
Proof.
  pose proof (store_at_middle ids [] (replicate (length ids) "") []) as H.
  cbn in H. rewrite !app_nil_r in H. apply H, length_replicate.
Qed.

Section AddLemmas.
Context {St : Type}.
Implicit Types (c : Conversation St) (w : World St).

Lemma Resolves_length (cl : iSlackConversation St) emails : ∀ s users s',
  Resolves cl emails s users s' → length users = length emails.
Proof.
  induction emails as [|e emails IH]; intros s [|u users] s' H; try done.
  cbn in H. destruct (GetUserByEmail _ _ _) as [resp s1]. destruct H as [_ H].
  cbn. f_equal. by eapply IH.
Qed.

Lemma Add_range_step index email rest slackIds c w :
  Add_range index (email :: rest) slackIds c w =
  let '(user, err, s) := GetUserByEmail (client c) email (remote w) in
  let w1 := after w s [CallGetUserByEmail email] in
  match err, user, cache c with
  | Some e, _, _ =>
      (Returned (inl (fmt_Errorf
         ("slack.conversation.add.getuserbyemail(" +:+ email +:+ ") -> ") e)), c, w1)
  | None, None, _ => (Panicked nil_deref_panic, c, w1)
  | None, Some u, None => (Panicked nil_map_panic, c, w1)
  | None, Some u, Some g =>
      Add_range (S index) rest (<[index := ID u]> slackIds)
        (with_cache c (Some (<[email := ID u]> g))) w1
  end.
Proof.
  cbn [Add_range]. unfold bind at 1, remote_call.
  destruct (GetUserByEmail _ _ _) as [[user [e|]] s]; [done|].
  destruct user as [u|]; [|done]. cbn [deref]. unfold bind at 1, ret.
  unfold bind, cache_assign. cbn [cache]. by destruct (cache c).
Qed.

(** The loop over a prefix of emails that all resolve. *)
Lemma Add_range_prefix pre : ∀ users rest index slackIds c w s',
  Resolves (client c) pre (remote w) users s' →
  (cache c = None → pre = []) →
  Add_range index (pre ++ rest) slackIds c w =
  Add_range (index + length pre) rest (store_at index (ID <$> users) slackIds)
    (with_cache c ((λ g, record_pairs g (zip pre (ID <$> users))) <$> cache c))
    (after w s' (CallGetUserByEmail <$> pre)).
Proof.
  induction pre as [|e pre IH]; intros [|u users] rest index slackIds c w s' HR Hnil;
    try done.
  - cbn in HR. subst s'. cbn. rewrite Nat.add_0_r, after_nil.
    f_equal. destruct c as [cl name [g|]]; done.
  - cbn [app]. rewrite Add_range_step. cbn in HR.
    destruct (GetUserByEmail _ _ _) as [resp s1]. destruct HR as [-> HR].
    destruct (cache c) as [g|] eqn:Hc; [|by specialize (Hnil eq_refl)].
    cbn zeta. rewrite (IH users rest (S index) _ _ _ s') by done.
    cbn. rewrite with_cache_twice, after_after. f_equal. lia.
Qed.

(** [Add] when every email resolves: one invite with the IDs in order. *)
Lemma Add_resolved emails users c w s1 :
  Resolves (client c) emails (remote w) users s1 →
  (cache c = None → emails = []) →
  Add emails c w =
    let '(err, s2) :=
      InviteUsersToConversation (client c) (conversationName c) (ID <$> users) s1 in
    let w2 := after w s2 ((CallGetUserByEmail <$> emails) ++
                [CallInviteUsersToConversation (conversationName c) (ID <$> users)]) in
    match err with
    | Some e =>
        (Returned (Some (fmt_Errorf
           ("slack.conversation.add.inviteuserstoconversation("
              +:+ conversationName c +:+ ", ...) -> ") e)),
         with_cache c None, w2)
    | None =>
        (Returned None,
         with_cache c ((λ g, record_pairs g (zip emails (ID <$> users))) <$> cache c), w2)
    end.
Proof.
  intros HR Hnil. unfold Add. unfold bind at 1.
  pose proof (Add_range_prefix emails users [] 0 (replicate (length emails) "")
                c w s1 HR Hnil) as Hrange.
  rewrite app_nil_r in Hrange. rewrite Hrange. cbn [Add_range].
  unfold ret at 1. unfold bind at 1, self. unfold bind at 1, remote_call.
  cbn [client conversationName with_cache remote after].
  rewrite <- (Resolves_length _ _ _ _ _ HR), <- (length_fmap ID users), store_at_fresh.
  destruct (InviteUsersToConversation _ _ _ _) as [[e|] s2]; cbn.
  - unfold after. cbn. by rewrite <- app_assoc.
  - unfold ret, after. cbn. by rewrite <- app_assoc.
Qed.

(** [Add] when an email fails to resolve after a prefix that resolves. *)
Lemma Add_unresolved pre e post users c w s1 u err s2 :
  Resolves (client c) pre (remote w) users s1 →
  GetUserByEmail (client c) e s1 = ((u, Some err), s2) →
  (cache c = None → pre = []) →
  Add (pre ++ e :: post) c w =
    (Returned (Some (fmt_Errorf
       ("slack.conversation.add.getuserbyemail(" +:+ e +:+ ") -> ") err)),
     with_cache c ((λ g, record_pairs g (zip pre (ID <$> users))) <$> cache c),
     after w s2 (CallGetUserByEmail <$> (pre ++ [e]))).
Proof.
  intros HR He Hnil. unfold Add. unfold bind at 1.
  rewrite (Add_range_prefix pre users (e :: post) 0 _ c w s1 HR Hnil).
  rewrite Add_range_step. cbn [client with_cache remote after]. rewrite He.
  cbn. unfold ret. by rewrite after_after, fmap_app.
Qed.

End AddLemmas.

Lemma record_pairs_snoc g pairs k v :
  record_pairs g (pairs ++ [(k, v)]) = <[k := v]> (record_pairs g pairs).
Proof. unfold record_pairs. by rewrite foldl_app. Qed.

(** Every recorded email has an entry. *)
Lemma record_pairs_has g pairs email :
  email ∈ pairs.*1 → is_Some (record_pairs g pairs !! email).
Proof.
  induction pairs as [|[k v] pairs IH] using rev_ind; [by intros ?%elem_of_nil|].
  rewrite fmap_app, elem_of_app, record_pairs_snoc. cbn. intros [Hin|Hin].
  - destruct (decide (k = email)) as [->|Hne].
    + rewrite lookup_insert_eq. by eexists.
    + rewrite lookup_insert_ne by done. by apply IH.
  - apply list_elem_of_singleton in Hin as ->. rewrite lookup_insert_eq. by eexists.
Qed.

Section AddProperties.
Context {St : Type}.
Implicit Types (c : Conversation St) (w : World St).

(** C2.  When every email resolves and the batched invite fails, [Add]
    returns the invite's error wrapped, and the cache it leaves has no entry
    at all: its length is zero and no email has an entry.  This holds
    although the resolutions had filled the cache before the invite: at the
    end of the resolution loop every email of the batch had an entry.
    (A nil cache can take no entry, so there the batch has to be empty for
    the invite to be reached.) *)
Theorem Add_invite_failure_empties_cache emails users c w s1 e s2 :
  Resolves (client c) emails (remote w) users s1 →
  (cache c = None → emails = []) →
  InviteUsersToConversation (client c) (conversationName c) (ID <$> users) s1
    = (Some e, s2) →
  Add emails c w =
    (Returned (Some (fmt_Errorf
       ("slack.conversation.add.inviteuserstoconversation("
          +:+ conversationName c +:+ ", ...) -> ") e)),
     with_cache c None,
     after w s2 ((CallGetUserByEmail <$> emails) ++
       [CallInviteUsersToConversation (conversationName c) (ID <$> users)]))
  ∧ map_len (cache (with_cache c None)) = 0
  ∧ (∀ email, map_lookup (cache (with_cache c None)) email = None)
  ∧ (∀ g, cache c = Some g →
       Add_range 0 emails (replicate (length emails) "") c w =
         (Returned (inr (ID <$> users)),
          with_cache c (Some (record_pairs g (zip emails (ID <$> users)))),
          after w s1 (CallGetUserByEmail <$> emails))
       ∧ ∀ email, email ∈ emails →
           is_Some (record_pairs g (zip emails (ID <$> users)) !! email)).
Proof.
  intros HR Hnil Hinvite. repeat split.
  - rewrite (Add_resolved emails users c w s1 HR Hnil). by rewrite Hinvite.
  - pose proof (Add_range_prefix emails users [] 0 (replicate (length emails) "")
                  c w s1 HR Hnil) as Hrange.
    rewrite app_nil_r, H in Hrange. rewrite Hrange. cbn.
    rewrite <- (Resolves_length _ _ _ _ _ HR), <- (length_fmap ID users).
    by rewrite store_at_fresh.
  - intros email Hin. apply record_pairs_has. rewrite fst_zip; [done|].
    by rewrite length_fmap, (Resolves_length _ _ _ _ _ HR).
Qed.

(** C5.  When an email fails to resolve, after a prefix of emails that
    resolve, [Add] returns that error (wrapped) at once: the only calls it
    has made are the lookups up to the failing email, none of them a call
    that changes the remote conversation.  And when all emails resolve, the
    lookups all come first and the one invite, with the IDs in the order of
    the emails, is the last call. *)
Theorem Add_resolves_before_inviting c w :
  (∀ pre e post users s1 u err s2,
     Resolves (client c) pre (remote w) users s1 →
     GetUserByEmail (client c) e s1 = ((u, Some err), s2) →
     (cache c = None → pre = []) →
     ∃ c',
       Add (pre ++ e :: post) c w =
         (Returned (Some (fmt_Errorf
            ("slack.conversation.add.getuserbyemail(" +:+ e +:+ ") -> ") err)),
          c', after w s2 (CallGetUserByEmail <$> (pre ++ [e])))
       ∧ Forall (λ call, mutating call = false) (CallGetUserByEmail <$> (pre ++ [e])))
  ∧ (∀ emails users s1,
     Resolves (client c) emails (remote w) users s1 →
     (cache c = None → emails = []) →
     ∃ r c' s2,
       Add emails c w =
         (Returned r, c',
          after w s2 ((CallGetUserByEmail <$> emails) ++
            [CallInviteUsersToConversation (conversationName c) (ID <$> users)]))).
Proof.
  split.
  - intros pre e post users s1 u err s2 HR He Hnil. eexists. split.
    + by apply (Add_unresolved pre e post users c w s1 u err s2).
    + apply Forall_fmap, Forall_forall. by intros.
  - intros emails users s1 HR Hnil. rewrite (Add_resolved emails users c w s1 HR Hnil).
    destruct (InviteUsersToConversation _ _ _ _) as [[e|] s2]; by eexists _, _, _.
Qed.

End AddProperties.

(** On the fake workspace: alice and bob resolve, bob is a member already,
    so the invite is refused. *)
Lemma Add_invite_failure_empties_cache_witness :
  Add ["a@x.com"; "b@x.com"] (New Fake.slack "C123") (Fake.world ["U2"]) =
    (Returned (Some (fmt_Errorf
       "slack.conversation.add.inviteuserstoconversation(C123, ...) -> "
       (errors_New "already_in_channel"))),
     with_cache (New Fake.slack "C123") None,
     after (Fake.world ["U2"]) ["U2"]
       [CallGetUserByEmail "a@x.com"; CallGetUserByEmail "b@x.com";
        CallInviteUsersToConversation "C123" ["U1"; "U2"]]).
Proof.
  apply (Add_invite_failure_empties_cache ["a@x.com"; "b@x.com"] [Fake.alice; Fake.bob]
           (New Fake.slack "C123") (Fake.world ["U2"]) ["U2"]
           (errors_New "already_in_channel") ["U2"]).
  - vm_compute. by repeat split.
  - discriminate.
  - reflexivity.
Defined.

(** On the fake workspace: nobody has the second email. *)
Lemma Add_resolves_before_inviting_witness :
  ∃ c',
    Add ["a@x.com"; "z@x.com"; "b@x.com"] (New Fake.slack "C123") (Fake.world ["U3"]) =
      (Returned (Some (fmt_Errorf "slack.conversation.add.getuserbyemail(z@x.com) -> "
                         (errors_New "users_not_found"))),
       c',
       after (Fake.world ["U3"]) ["U3"]
         [CallGetUserByEmail "a@x.com"; CallGetUserByEmail "z@x.com"])
    ∧ Forall (λ call, mutating call = false)
        [CallGetUserByEmail "a@x.com"; CallGetUserByEmail "z@x.com"].
Proof.
  apply (proj1 (Add_resolves_before_inviting (New Fake.slack "C123") (Fake.world ["U3"]))
           ["a@x.com"] "z@x.com" ["b@x.com"] [Fake.alice] ["U3"] None
           (errors_New "users_not_found") ["U3"]).
  - vm_compute. by repeat split.
  - reflexivity.
  - discriminate.
Defined.

(** ** [Remove] *)

Section Eviction.
Implicit Types (m : GoMap) (emails : list string).

Lemma evict_snoc m emails email :
  evict m (emails ++ [email]) = map_delete (evict m emails) email.
Proof. unfold evict. by rewrite foldl_app. Qed.

Lemma map_lookup_delete m k k' :
  map_lookup (map_delete m k) k' = if decide (k = k') then None else map_lookup m k'.
Proof. destruct m as [g|]; cbn; [apply lookup_delete|by case_decide]. Qed.

(** The emails evicted have no entry left. *)
Lemma evict_gone m emails email :
  email ∈ emails → map_lookup (evict m emails) email = None.
Proof.
  induction emails as [|e emails IH] using rev_ind; [by intros ?%elem_of_nil|].
  rewrite elem_of_app, evict_snoc, map_lookup_delete. intros [Hin|Hin].
  - case_decide; [done|]. by apply IH.
  - apply list_elem_of_singleton in Hin as ->. by case_decide.
Qed.

(** All other emails keep the entry they had. *)
Lemma evict_kept m emails email :
  email ∉ emails → map_lookup (evict m emails) email = map_lookup m email.
Proof.
  induction emails as [|e emails IH] using rev_ind; [done|].
  rewrite not_elem_of_app, evict_snoc, map_lookup_delete. intros [Hin Hne].
  case_decide as Heq; [|by apply IH].
  subst e. destruct Hne. by apply list_elem_of_singleton.
Qed.

(** The identifier sent for an email is read from the cache without the
    entries of the emails before it. *)
Lemma kick_ids_lookup m emails i email :
  emails !! i = Some email →
  kick_ids m emails !! i = Some (map_index (evict m (take i emails)) email).
Proof.
  revert m i. induction emails as [|e emails IH]; intros m [|i] H; try done.
  - cbn in H. by injection H as ->.
  - cbn in H. cbn. by apply IH.
Qed.

End Eviction.

Section RemoveLemmas.
Context {St : Type}.
Implicit Types (c : Conversation St) (w : World St).

Lemma Remove_range_step email rest c w :
  Remove_range (email :: rest) c w =
  let id := map_index (cache c) email in
  let '(err, s) := KickUserFromConversation (client c) (conversationName c) id (remote w) in
  let w1 := after w s (kick_calls (conversationName c) [id]) in
  match err with
  | Some e => (Returned (Some (kick_error (conversationName c) id e)), c, w1)
  | None => Remove_range rest (with_cache c (map_delete (cache c) email)) (asleep w1 1)
  end.
Proof.
  cbn [Remove_range]. unfold bind at 1, self. unfold bind at 1, remote_call.
  destruct (KickUserFromConversation _ _ _ _) as [[e|] s]; [done|].
  unfold bind at 1, cache_delete, set_cache. by unfold bind, time_Sleep.
Qed.

(** The loop over a prefix of emails whose removals all succeed. *)
Lemma Remove_range_prefix pre : ∀ rest c w s',
  Kicks (client c) (conversationName c) (kick_ids (cache c) pre) (remote w) s' →
  Remove_range (pre ++ rest) c w =
  Remove_range rest (with_cache c (evict (cache c) pre))
    (asleep (after w s' (kick_calls (conversationName c) (kick_ids (cache c) pre)))
            (length pre)).
Proof.
  induction pre as [|e pre IH]; intros rest c w s' HK.
  - cbn in HK. subst s'. cbn. rewrite with_cache_same, after_nil.
    destruct w. unfold asleep. cbn. by rewrite Nat.add_0_r.
  - cbn [app]. rewrite Remove_range_step. cbn in HK. cbn zeta.
    destruct (KickUserFromConversation _ _ _ _) as [err s1]. destruct HK as [-> HK].
    rewrite (IH rest _ _ s') by done.
    cbn. unfold asleep, after. cbn. rewrite <- app_assoc, <- Nat.add_assoc. done.
Qed.

End RemoveLemmas.

Section RemoveProperties.
Context {St : Type}.
Implicit Types (c : Conversation St) (w : World St).

(** C3.  With a cache of zero entries (empty or nil) [Remove] returns an
    error that is [ErrCacheEmpty], for every list of emails, and leaves the
    adapter and the world as they were: no call is made through the client,
    nothing is removed, and the cache is unchanged. *)
Theorem Remove_empty_cache emails c w :
  map_len (cache c) = 0 →
  Remove emails c w =
    (Returned (Some (fmt_Errorf "slack.conversation.remove -> " ErrCacheEmpty)), c, w)
  ∧ errors_Is (fmt_Errorf "slack.conversation.remove -> " ErrCacheEmpty) ErrCacheEmpty = true.
Proof.
  intros Hlen. split; [|done].
  unfold Remove, bind, self. by case_decide.
Qed.

(** C4.  Past the guard, [Remove] handles the emails one by one in the order
    given: the identifier sent for an email is read from the cache as the
    removals before it have left it, and each removal that succeeds deletes
    that email's entry before the next email's turn.
    (1) If the removal of [e] fails after those of [pre] succeeded, [Remove]
    returns that error (wrapped) and stops: the calls made are the removals
    for [pre] and the failed one for [e], nothing for the emails after [e];
    the cache is the one before the call without the entries of [pre]:
    nothing is rolled back.
    (2) If all removals succeed the result is nil and the entries of all the
    emails are gone.
    (3) In the cache without the entries of [pre], the emails of [pre] have
    no entry and every other email, so the failing one and those after it
    unless they also occur in [pre], has the entry it had before. *)
Theorem Remove_sequential c w :
  map_len (cache c) ≠ 0 →
  (∀ pre e post s1 err s2,
     Kicks (client c) (conversationName c) (kick_ids (cache c) pre) (remote w) s1 →
     KickUserFromConversation (client c) (conversationName c)
       (map_index (evict (cache c) pre) e) s1 = (Some err, s2) →
     Remove (pre ++ e :: post) c w =
       (Returned (Some (kick_error (conversationName c)
                          (map_index (evict (cache c) pre) e) err)),
        with_cache c (evict (cache c) pre),
        asleep (after w s2 (kick_calls (conversationName c)
                  (kick_ids (cache c) pre ++ [map_index (evict (cache c) pre) e])))
               (length pre)))
  ∧ (∀ emails s1,
     Kicks (client c) (conversationName c) (kick_ids (cache c) emails) (remote w) s1 →
     Remove emails c w =
       (Returned None, with_cache c (evict (cache c) emails),
        asleep (after w s1 (kick_calls (conversationName c) (kick_ids (cache c) emails)))
               (length emails)))
  ∧ (∀ emails i email,
     emails !! i = Some email →
     kick_ids (cache c) emails !! i
       = Some (map_index (evict (cache c) (take i emails)) email))
  ∧ (∀ pre email,
     (email ∈ pre → map_lookup (evict (cache c) pre) email = None)
     ∧ (email ∉ pre →
        map_lookup (evict (cache c) pre) email = map_lookup (cache c) email)).
Proof.
  intros Hlen.
  assert (∀ emails, Remove emails c w = Remove_range emails c w) as Hguard.
  { intros emails. unfold Remove, bind, self. by case_decide. }
  split; [|split; [|split]].
  - intros pre e post s1 err s2 HK He.
    rewrite Hguard, (Remove_range_prefix pre (e :: post) c w s1 HK), Remove_range_step.
    cbn [cache client conversationName with_cache remote asleep after].
    rewrite He. unfold asleep, after, kick_calls. cbn.
    by rewrite fmap_app, <- app_assoc.
  - intros emails s1 HK.
    rewrite Hguard. rewrite <- (app_nil_r emails) at 1.
    by rewrite (Remove_range_prefix emails [] c w s1 HK).
  - intros emails i email. apply kick_ids_lookup.
  - intros pre email. split; [apply evict_gone|apply evict_kept].
Qed.

(** C8.  On a fresh adapter, [Add] of one email whose lookup and invite
    succeed returns nil and leaves exactly the entry email -> resolved ID in
    the cache.  A [Remove] of that email on the adapter so left, with no
    [Get] in between, passes the guard and sends one removal with the ID
    from the cache: it returns nil when the remote performs the removal (and
    the entry is then deleted), and otherwise the remote's error wrapped. *)
Theorem Add_then_Remove (cl : iSlackConversation St) channelName w email u s1 s2 :
  GetUserByEmail cl email (remote w) = ((Some u, None), s1) →
  InviteUsersToConversation cl channelName [ID u] s1 = (None, s2) →
  Add [email] (New cl channelName) w =
    (Returned None,
     with_cache (New cl channelName) (Some {[email := ID u]}),
     after w s2 [CallGetUserByEmail email;
                 CallInviteUsersToConversation channelName [ID u]])
  ∧ map_lookup (Some {[email := ID u]}) email = Some (ID u)
  ∧ ∀ w' err s3,
      KickUserFromConversation cl channelName (ID u) (remote w') = (err, s3) →
      Remove [email] (with_cache (New cl channelName) (Some {[email := ID u]})) w' =
        match err with
        | None =>
            (Returned None, with_cache (New cl channelName) (Some ∅),
             asleep (after w' s3 [CallKickUserFromConversation channelName (ID u)]) 1)
        | Some e =>
            (Returned (Some (kick_error channelName (ID u) e)),
             with_cache (New cl channelName) (Some {[email := ID u]}),
             after w' s3 [CallKickUserFromConversation channelName (ID u)])
        end.
Proof.
  intros Hlookup Hinvite. split; [|split].
  - rewrite (Add_resolved [email] [u] (New cl channelName) w s1).
    + cbn [fmap list_fmap New client conversationName]. rewrite Hinvite. cbn.
      by rewrite insert_empty.
    + cbn. by rewrite Hlookup.
    + discriminate.
  - cbn. apply lookup_singleton_eq.
  - intros w' err s3 Hkick. unfold Remove, bind at 1, self.
    cbn [cache with_cache map_len]. rewrite map_size_singleton.
    case_decide; [done|]. rewrite Remove_range_step.
    cbn [cache with_cache client conversationName New].
    assert (map_index (Some {[email := ID u]}) email = ID u) as ->.
    { unfold map_index, map_lookup. by rewrite lookup_singleton_eq. }
    rewrite Hkick. destruct err as [e|]; [done|].
    cbn. by rewrite delete_singleton_eq.
Qed.

End RemoveProperties.

(** On the fake workspace: nothing is cached yet. *)
Lemma Remove_empty_cache_witness :
  Remove ["a@x.com"; "b@x.com"] (New Fake.slack "C123") (Fake.world ["U1"; "U2"]) =
    (Returned (Some (fmt_Errorf "slack.conversation.remove -> " ErrCacheEmpty)),
     New Fake.slack "C123", Fake.world ["U1"; "U2"]).
Proof.
  apply (Remove_empty_cache ["a@x.com"; "b@x.com"] (New Fake.slack "C123")
           (Fake.world ["U1"; "U2"])).
  reflexivity.
Defined.

(** On the fake workspace: alice is a member and bob is not, so the second
    removal fails. *)
Lemma Remove_sequential_witness :
  Remove ["a@x.com"; "b@x.com"] knows_alice_and_bob (Fake.world ["U1"; "U3"]) =
    (Returned (Some (kick_error "C123" "U2" (errors_New "not_in_channel"))),
     with_cache knows_alice_and_bob (evict (cache knows_alice_and_bob) ["a@x.com"]),
     asleep (after (Fake.world ["U1"; "U3"]) ["U3"] (kick_calls "C123" ["U1"; "U2"])) 1)
  ∧ map_lookup (evict (cache knows_alice_and_bob) ["a@x.com"]) "a@x.com" = None
  ∧ map_lookup (evict (cache knows_alice_and_bob) ["a@x.com"]) "b@x.com" = Some "U2".
Proof.
  assert (map_len (cache knows_alice_and_bob) ≠ 0) as Hlen by (vm_compute; lia).
  pose proof (Remove_sequential knows_alice_and_bob (Fake.world ["U1"; "U3"]) Hlen)
    as (Hfail & _ & _ & Hcache).
  split; [|split].
  - apply (Hfail ["a@x.com"] "b@x.com" [] ["U3"] (errors_New "not_in_channel") ["U3"]).
    + vm_compute. by repeat split.
    + reflexivity.
  - apply (Hcache ["a@x.com"] "a@x.com"). vm_compute. left.
  - rewrite (proj2 (Hcache ["a@x.com"] "b@x.com")); [reflexivity|].
    intros Hin%list_elem_of_singleton. discriminate.
Defined.

(** On the fake workspace: alice is invited and then removed again. *)
Lemma Add_then_Remove_witness :
  Add ["a@x.com"] (New Fake.slack "C123") (Fake.world ["U2"]) =
    (Returned None,
     with_cache (New Fake.slack "C123") (Some {["a@x.com" := "U1"]}),
     after (Fake.world ["U2"]) ["U2"; "U1"]
       [CallGetUserByEmail "a@x.com"; CallInviteUsersToConversation "C123" ["U1"]])
  ∧ Remove ["a@x.com"] (with_cache (New Fake.slack "C123") (Some {["a@x.com" := "U1"]}))
      (after (Fake.world ["U2"]) ["U2"; "U1"]
         [CallGetUserByEmail "a@x.com"; CallInviteUsersToConversation "C123" ["U1"]]) =
    (Returned None, with_cache (New Fake.slack "C123") (Some ∅),
     asleep (after (after (Fake.world ["U2"]) ["U2"; "U1"]
                      [CallGetUserByEmail "a@x.com";
                       CallInviteUsersToConversation "C123" ["U1"]])
               ["U2"] [CallKickUserFromConversation "C123" "U1"]) 1).
Proof.
  pose proof (Add_then_Remove Fake.slack "C123" (Fake.world ["U2"]) "a@x.com"
                Fake.alice ["U2"] ["U2"; "U1"] eq_refl eq_refl) as (Hadd & _ & Hremove).
  split; [exact Hadd|].
  apply (Hremove _ None ["U2"]). reflexivity.
Defined.

(** ** The nil cache *)

Section NilCache.
Context {St : Type}.
Implicit Types (c : Conversation St) (w : World St).

(** The pagination loop never touches the adapter. *)
Lemma loop_keeps_adapter fuel : ∀ cur users c w,
  (getListOfSlackUsernames_loop fuel cur users c w).1.2 = c.
Proof.
  induction fuel as [|fuel IH]; intros cur users c w; [done|].
  rewrite loop_step.
  destruct (GetUsersInConversation _ _ _) as [[[page next] [e|]] s]; [done|].
  cbn zeta. case_decide; [done|]. apply IH.
Qed.

Lemma Get_range_keeps_nil users emails c w :
  cache c = None → (Get_range users emails c w).1.2 = c.
Proof.
  intros Hc. destruct (humans users) as [|u us] eqn:Hh.
  - by rewrite Get_range_bots.
  - rewrite Get_range_nil; [done..|]. by rewrite Hh.
Qed.

Lemma Get_keeps_nil fuel c w : cache c = None → cache_after (Get fuel c w) = None.
Proof.
  intros Hc. unfold cache_after, Get, getListOfSlackUsernames. unfold bind at 1.
  pose proof (loop_keeps_adapter fuel "" [] c w) as Hloop.
  destruct (getListOfSlackUsernames_loop _ _ _ _ _) as [[[[ids [e|]]| |] c1] w1];
    cbn in Hloop; subst c1; try done.
  unfold bind at 1, remote_call.
  destruct (GetUsersInfo _ _ _) as [[[users|] [e|]] s2]; try done.
  cbn [deref]. unfold bind at 1, ret at 1. unfold bind.
  pose proof (Get_range_keeps_nil users [] c
    {| remote := s2; calls := calls w1 ++ [CallGetUsersInfo ids]; slept := slept w1 |} Hc)
    as Hrange.
  destruct (Get_range _ _ _ _) as [[[emails| |] c2] w2]; cbn in Hrange; by subst c2.
Qed.

Lemma Add_keeps_nil emails c w : cache c = None → cache_after (Add emails c w) = None.
Proof.
  intros Hc. unfold cache_after, Add. unfold bind at 1. destruct emails as [|email rest].
  - cbn [Add_range]. unfold ret at 1. unfold bind at 1, self. unfold bind at 1, remote_call.
    by destruct (InviteUsersToConversation _ _ _ _) as [[e|] s2].
  - rewrite Add_range_step, Hc.
    by destruct (GetUserByEmail _ _ _) as [[[u|] [e|]] s1].
Qed.

Lemma Remove_keeps_nil emails c w : cache c = None → cache_after (Remove emails c w) = None.
Proof. intros Hc. unfold cache_after, Remove, bind, self. by rewrite Hc. Qed.

(** [Get] on a nil cache panics as soon as a human is to be recorded. *)
Lemma Get_nil_panics c w pages cur s page s1 users s2 fuel :
  cache c = None →
  Listing (client c) (conversationName c) "" (remote w) pages cur s →
  GetUsersInConversation (client c) (page_request (conversationName c) cur) s
    = ((page, "", None), s1) →
  GetUsersInfo (client c) (concat (pages.*1) ++ page) s1 = ((Some users, None), s2) →
  length pages < fuel →
  (∃ u, u ∈ users ∧ IsBot u = false) →
  Get fuel c w =
    (Panicked nil_map_panic, c,
     after w s2 (page_calls (conversationName c) (requested "" pages ++ [cur])
                   ++ [CallGetUsersInfo (concat (pages.*1) ++ page)])).
Proof.
  intros Hc HL Hlast Hinfo Hfuel (u & Hu & Hbot).
  rewrite (Get_listed c w pages cur s page s1 fuel HL Hlast Hfuel). cbn zeta.
  rewrite Hinfo, Get_range_nil; [done..|].
  intros Hh. assert (u ∈ humans users) as Hin by by rewrite elem_of_humans.
  rewrite Hh in Hin. by apply elem_of_nil in Hin.
Qed.

(** [Add] on a nil cache panics once the first email has resolved. *)
Lemma Add_nil_panics c w email rest u s1 :
  cache c = None →
  GetUserByEmail (client c) email (remote w) = ((Some u, None), s1) →
  Add (email :: rest) c w =
    (Panicked nil_map_panic, c, after w s1 [CallGetUserByEmail email]).
Proof.
  intros Hc Hlookup. unfold Add. unfold bind at 1.
  by rewrite Add_range_step, Hlookup, Hc.
Qed.

(** C10.  An [Add] whose invite fails leaves the adapter with a nil cache.
    On the adapter so left, in whatever state the world is by then:
    a [Get] that resolves at least one non-bot user panics at the write into
    the cache; an [Add] whose first email resolves panics at the write into
    the cache; and whatever [Get], [Add] or [Remove] do, the cache is still
    nil afterwards, so that only a new adapter gets out of this state. *)
Theorem Add_invite_failure_leaves_nil_cache c w emails users s1 e s2 :
  Resolves (client c) emails (remote w) users s1 →
  (cache c = None → emails = []) →
  InviteUsersToConversation (client c) (conversationName c) (ID <$> users) s1
    = (Some e, s2) →
  cache_after (Add emails c w) = None
  ∧ (Add emails c w).1.2 = with_cache c None
  ∧ ∀ w',
      (∀ pages cur s page s1' users' s2' fuel,
         Listing (client c) (conversationName c) "" (remote w') pages cur s →
         GetUsersInConversation (client c) (page_request (conversationName c) cur) s
           = ((page, "", None), s1') →
         GetUsersInfo (client c) (concat (pages.*1) ++ page) s1'
           = ((Some users', None), s2') →
         length pages < fuel →
         (∃ u, u ∈ users' ∧ IsBot u = false) →
         Get fuel (with_cache c None) w' =
           (Panicked nil_map_panic, with_cache c None,
            after w' s2' (page_calls (conversationName c) (requested "" pages ++ [cur])
                            ++ [CallGetUsersInfo (concat (pages.*1) ++ page)])))
      ∧ (∀ email rest u s1',
         GetUserByEmail (client c) email (remote w') = ((Some u, None), s1') →
         Add (email :: rest) (with_cache c None) w' =
           (Panicked nil_map_panic, with_cache c None,
            after w' s1' [CallGetUserByEmail email]))
      ∧ (∀ fuel emails',
         cache_after (Get fuel (with_cache c None) w') = None
         ∧ cache_after (Add emails' (with_cache c None) w') = None
         ∧ cache_after (Remove emails' (with_cache c None) w') = None).
Proof.
  intros HR Hnil Hinvite.
  assert ((Add emails c w).1.2 = with_cache c None) as Hleft.
  { rewrite (Add_resolved emails users c w s1 HR Hnil). by rewrite Hinvite. }
  split; [|split; [done|]].
  - unfold cache_after. by rewrite Hleft.
  - intros w'. split; [|split].
    + intros pages cur s page s1' users' s2' fuel HL Hlast Hinfo Hfuel Hhuman.
      by apply (Get_nil_panics (with_cache c None) w' pages cur s page s1' users' s2').
    + intros email rest u s1' Hlookup.
      by apply (Add_nil_panics (with_cache c None) w' email rest u s1').
    + intros fuel emails'. split; [|split].
      * by apply Get_keeps_nil.
      * by apply Add_keeps_nil.
      * by apply Remove_keeps_nil.
Qed.

End NilCache.

(** On the fake workspace: bob is a member already, the invite is refused,
    and the next [Get] panics. *)
Lemma Add_invite_failure_leaves_nil_cache_witness :
  cache_after (Add ["b@x.com"] (New Fake.slack "C123") (Fake.world ["U2"])) = None
  ∧ Get 5 (with_cache (New Fake.slack "C123") None) (Fake.world ["U2"]) =
      (Panicked nil_map_panic, with_cache (New Fake.slack "C123") None,
       after (Fake.world ["U2"]) ["U2"]
         (page_calls "C123" [""] ++ [CallGetUsersInfo ["U2"]])).
Proof.
  assert (Resolves (client (New Fake.slack "C123")) ["b@x.com"] ["U2"] [Fake.bob] ["U2"])
    as HR by (vm_compute; by repeat split).
  pose proof (Add_invite_failure_leaves_nil_cache (New Fake.slack "C123")
                (Fake.world ["U2"]) ["b@x.com"] [Fake.bob] ["U2"]
                (errors_New "already_in_channel") ["U2"] HR ltac:(discriminate) eq_refl)
    as (Hnil & _ & Hnext).
  split; [exact Hnil|].
  apply (proj1 (Hnext (Fake.world ["U2"])) [] "" ["U2"] ["U2"] ["U2"] [Fake.bob] ["U2"] 5).
  - by split.
  - reflexivity.
  - reflexivity.
  - simpl. lia.
  - exists Fake.bob. split; [left|reflexivity].
Defined.

(** ** The read-only on-call adapter *)

(** C9.  For every list of emails, the non-empty ones in particular, [Add]
    and [Remove] of the read-only adapter return an error that is
    [ErrReadOnly] and leave the world as it was: the client has received no
    call. *)
Theorem read_only_rejects_mutation {St} (emails : list string) (a : OnCall.OnCall St)
    (w : OnCall.ScheduleWorld St) :
  (∃ e, OnCall.Add emails a w = (Some e, a, w) ∧ errors_Is e ErrReadOnly = true)
  ∧ (∃ e, OnCall.Remove emails a w = (Some e, a, w) ∧ errors_Is e ErrReadOnly = true)
  ∧ OnCall.Calls (OnCall.Add emails a w).2 = OnCall.Calls w
  ∧ OnCall.Calls (OnCall.Remove emails a w).2 = OnCall.Calls w.
Proof. repeat split; by eexists. Qed.

(** * Further properties of the adapter *)

(** ** More bookkeeping *)

Section MoreBookkeeping.
Context {St : Type}.
Implicit Types (c : Conversation St) (w : World St).

Lemma asleep_0 w : asleep w 0 = w.
Proof. destruct w. unfold asleep. cbn. by rewrite Nat.add_0_r. Qed.

Lemma asleep_asleep w a b : asleep (asleep w a) b = asleep w (a + b).
Proof. unfold asleep. cbn. by rewrite Nat.add_assoc. Qed.

Lemma after_asleep w n s cs : after (asleep w n) s cs = asleep (after w s cs) n.
Proof. done. Qed.



End MoreBookkeeping.

(** ** The shape of every run of [Get] *)

Section GetShape.
Context {St : Type}.
Implicit Types (c : Conversation St) (w : World St).

(** Every run of the pagination loop: the adapter is untouched, the world
    has only gained page requests for the adapter's conversation, and an
    error comes with no users. *)
Lemma loop_shape fuel : ∀ cur users c w,
  ∃ out cursors s',
    getListOfSlackUsernames_loop fuel cur users c w =
      (out, c, after w s' (page_calls (conversationName c) cursors))
    ∧ (length cursors ≤ fuel)%nat
    ∧ match out with
      | Returned (us, Some e) =>
          us = [] ∧ ∃ e0,
            e = fmt_Errorf ("getusersinconversation(" +:+ conversationName c +:+ ") -> ") e0
      | Returned (_, None) => True
      | Panicked _ => False
      | OutOfFuel => length cursors = fuel
      end.
Proof.
  induction fuel as [|fuel IH]; intros cur users c w.
  - exists OutOfFuel, [], (remote w). cbn. by rewrite after_nil.
  - rewrite loop_step.
    destruct (GetUsersInConversation _ _ _) as [[[page next] [e|]] s]; cbn zeta.
    + eexists _, [cur], s. repeat split; [cbn; lia|]. by exists e.
    + case_decide.
      * eexists _, [cur], s. repeat split. cbn; lia.
      * destruct (IH next (users ++ page) c
                    (after w s (page_calls (conversationName c) [cur])))
          as (out & cursors & s' & -> & Hlen & Hout).
        exists out, (cur :: cursors), s'. rewrite after_after. repeat split.
        -- cbn; lia.
        -- destruct out as [[us [e|]]| |]; try done. cbn. lia.
Qed.

(** Every run of the loop of [Get] over the users: the world is untouched,
    only the cache may change, and there no entry is lost; a panic is the
    write into a nil cache. *)
Lemma Get_range_shape users : ∀ emails c w,
  ∃ out m,
    Get_range users emails c w = (out, with_cache c m, w)
    ∧ (is_Some (cache c) → is_Some m)
    ∧ (∀ k, is_Some (map_lookup (cache c) k) → is_Some (map_lookup m k))
    ∧ match out with
      | Returned _ => True
      | Panicked msg => msg = nil_map_panic ∧ cache c = None ∧ m = None
      | OutOfFuel => False
      end.
Proof.
  induction users as [|u users IH]; intros emails c w.
  - eexists _, (cache c). cbn. by rewrite with_cache_same.
  - cbn [Get_range]. destruct (IsBot u); cbn [negb]; [apply IH|].
    unfold bind, cache_assign. destruct (cache c) as [g|] eqn:Hc; cbn.
    + destruct (IH (emails ++ [Email (Profile u)])
                  (with_cache c (Some (<[Email (Profile u) := ID u]> g))) w)
        as (out & m & -> & Halloc & Hmono & Hout).
      exists out, m. rewrite with_cache_twice. repeat split.
      * intros _. by apply Halloc.
      * intros k Hk. apply Hmono. cbn.
        destruct (decide (Email (Profile u) = k)) as [->|Hne].
        -- rewrite lookup_insert_eq. by eexists.
        -- by rewrite lookup_insert_ne.
      * destruct out as [a|msg|]; try done. by destruct Hout as (_ & ? & _).
    + exists (Panicked nil_map_panic), None.
      replace (with_cache c None) with c by (by rewrite <- Hc, with_cache_same).
      repeat split; try done; by intros k [? ?].
Qed.

(** Every run of [Get]. *)
Lemma Get_shape fuel c w :
  ∃ out m cursors info s',
    Get fuel c w =
      (out, with_cache c m,
       after w s' (page_calls (conversationName c) cursors
                     ++ option_list (CallGetUsersInfo <$> info)))
    ∧ (length cursors ≤ fuel)%nat
    ∧ (is_Some (cache c) → is_Some m)
    ∧ (∀ k, is_Some (map_lookup (cache c) k) → is_Some (map_lookup m k))
    ∧ match out with
      | Returned (r, Some e) =>
          r = None ∧ m = cache c ∧
          ∃ e0, (e = page_error (conversationName c) e0 ∨ e = info_error e0)
      | Returned (r, None) => is_Some r
      | Panicked msg =>
          (msg = nil_map_panic ∧ cache c = None) ∨ (msg = nil_deref_panic ∧ m = cache c)
      | OutOfFuel => m = cache c ∧ length cursors = fuel ∧ info = None
      end.
Proof.
  unfold Get, getListOfSlackUsernames. unfold bind at 1.
  destruct (loop_shape fuel "" [] c w) as (out & cursors & s1 & -> & Hlen & Hout).
  destruct out as [[ids [e|]]|msg|]; [| |done|].
  - destruct Hout as (-> & e0 & ->).
    eexists _, (cache c), cursors, None, s1. cbn. rewrite app_nil_r, with_cache_same.
    repeat split; try done. exists e0. by left.
  - unfold bind at 1, remote_call.
    destruct (GetUsersInfo _ _ _) as [[users [e|]] s2]; cbn.
    + eexists _, (cache c), cursors, (Some ids), s2. cbn.
      unfold ret, after. cbn. rewrite <- app_assoc, with_cache_same.
      repeat split; try done. exists e. by right.
    + destruct users as [users|]; cbn.
      * unfold bind.
        destruct (Get_range_shape users [] c
          {| remote := s2;
             calls := (calls w ++ page_calls (conversationName c) cursors)
                        ++ [CallGetUsersInfo ids];
             slept := slept w |}) as (out & m & -> & Halloc & Hmono & Hrange).
        destruct out as [emails|msg|]; [| |done].
        -- eexists _, m, cursors, (Some ids), s2. unfold ret, after. cbn.
           rewrite <- app_assoc. repeat split; try done; by eexists.
        -- destruct Hrange as (-> & Hc & ->).
           eexists _, None, cursors, (Some ids), s2. unfold after. cbn.
           rewrite <- app_assoc. repeat split; try done. by left.
      * eexists _, (cache c), cursors, (Some ids), s2. unfold panic, after. cbn.
        rewrite <- app_assoc, with_cache_same. repeat split; try done. by right.
  - eexists _, (cache c), cursors, None, s1. cbn. rewrite app_nil_r, with_cache_same.
    by repeat split.
Qed.

End GetShape.

(** ** The shape of every run of [Add] and of [Remove] *)

Lemma length_kick_ids m emails : length (kick_ids m emails) = length emails.
Proof. revert m. induction emails as [|e emails IH]; intros m; cbn; [done|by rewrite IH]. Qed.

Section AddRemoveShape.
Context {St : Type}.
Implicit Types (c : Conversation St) (w : World St).

(** The side conditions of the shape lemmas. *)
Ltac shape_done :=
  repeat split; try done; try (cbn; lia); try (by left); try (by right);
  try (by intros ? [? ?]).

(** Every run of the resolution loop of [Add]. *)
Lemma Add_range_shape emails : ∀ index slackIds c w,
  ∃ out m n s',
    Add_range index emails slackIds c w =
      (out, with_cache c m, after w s' (CallGetUserByEmail <$> take n emails))
    ∧ (n ≤ length emails)%nat
    ∧ (is_Some (cache c) → is_Some m)
    ∧ (∀ k, is_Some (map_lookup (cache c) k) → is_Some (map_lookup m k))
    ∧ match out with
      | Returned (inr ids) => n = length emails ∧ length ids = length slackIds
      | Returned (inl e) =>
          ∃ email e0, emails !! pred n = Some email ∧ (0 < n)%nat
                      ∧ e = lookup_error email e0
      | Panicked msg =>
          (msg = nil_map_panic ∧ cache c = None) ∨ msg = nil_deref_panic
      | OutOfFuel => False
      end.
Proof.
  induction emails as [|email rest IH]; intros index slackIds c w.
  - eexists _, (cache c), 0, (remote w). cbn. by rewrite with_cache_same, after_nil.
  - rewrite Add_range_step.
    destruct (GetUserByEmail _ _ _) as [[user [e|]] s]; cbn zeta.
    + eexists _, (cache c), 1, s. rewrite with_cache_same. cbn.
      repeat split; try done; [lia|]. exists email, e. repeat split. lia.
    + destruct user as [u|].
      * destruct (cache c) as [g|] eqn:Hc.
        -- destruct (IH (S index) (<[index := ID u]> slackIds)
                       (with_cache c (Some (<[email := ID u]> g)))
                       (after w s [CallGetUserByEmail email]))
             as (out & m & n & s' & -> & Hn & Halloc & Hmono & Hout).
           exists out, m, (S n), s'. rewrite with_cache_twice, after_after. cbn.
           repeat split; [lia|by intros _; apply Halloc| |].
           ++ intros k Hk. apply Hmono. cbn.
              destruct (decide (email = k)) as [->|Hne].
              ** rewrite lookup_insert_eq. by eexists.
              ** by rewrite lookup_insert_ne.
           ++ destruct out as [[e|ids]|msg|]; [| | |done].
              ** destruct Hout as (email' & e0 & Hat & Hpos & ->).
                 exists email', e0. repeat split; [|lia].
                 destruct n as [|n]; [lia|done].
              ** destruct Hout as [-> Hlen]. split; [done|].
                 by rewrite Hlen, length_insert.
              ** destruct Hout as [[_ Hnil]|Hmsg]; [done|by right].
        -- eexists _, None, 1, s.
           replace (with_cache c None) with c by (by rewrite <- Hc, with_cache_same).
           cbn. shape_done.
      * eexists _, (cache c), 1, s. rewrite with_cache_same. cbn. shape_done.
Qed.

(** Every run of [Add]. *)
Lemma Add_shape emails c w :
  ∃ out m n inv s',
    Add emails c w =
      (out, with_cache c m,
       after w s' ((CallGetUserByEmail <$> take n emails)
                     ++ option_list
                          (CallInviteUsersToConversation (conversationName c) <$> inv)))
    ∧ (n ≤ length emails)%nat
    ∧ (∀ ids, inv = Some ids → n = length emails ∧ length ids = length emails)
    ∧ match out with
      | Returned None =>
          is_Some inv ∧ (is_Some (cache c) → is_Some m)
          ∧ (∀ k, is_Some (map_lookup (cache c) k) → is_Some (map_lookup m k))
      | Returned (Some e) =>
          (∃ e0, e = invite_error (conversationName c) e0 ∧ is_Some inv ∧ m = None)
          ∨ (∃ email e0, e = lookup_error email e0 ∧ email ∈ emails ∧ inv = None
               ∧ (is_Some (cache c) → is_Some m)
               ∧ (∀ k, is_Some (map_lookup (cache c) k) → is_Some (map_lookup m k)))
      | Panicked msg =>
          inv = None ∧ (is_Some (cache c) → is_Some m)
          ∧ (∀ k, is_Some (map_lookup (cache c) k) → is_Some (map_lookup m k))
          ∧ ((msg = nil_map_panic ∧ cache c = None) ∨ msg = nil_deref_panic)
      | OutOfFuel => False
      end.
Proof.
  unfold Add. unfold bind at 1.
  destruct (Add_range_shape emails 0 (replicate (length emails) "") c w)
    as (out & m & n & s1 & -> & Hn & Halloc & Hmono & Hout).
  destruct out as [[e|ids]|msg|]; [| | |done].
  - destruct Hout as (email & e0 & Hat & Hpos & ->).
    eexists _, m, n, None, s1. cbn. rewrite app_nil_r. repeat split; try done.
    right. exists email, e0. repeat split; try done.
    by eapply list_elem_of_lookup_2.
  - destruct Hout as [-> Hlen]. rewrite length_replicate in Hlen.
    unfold bind at 1, self. unfold bind at 1, remote_call.
    cbn [client conversationName with_cache remote after].
    destruct (InviteUsersToConversation _ _ _ _) as [[e|] s2]; cbn.
    + eexists _, None, (length emails), (Some ids), s2. unfold after. cbn.
      rewrite <- app_assoc. repeat split; try done; try congruence.
      left. exists e. repeat split. by eexists.
    + eexists _, m, (length emails), (Some ids), s2. unfold ret, after. cbn.
      rewrite <- app_assoc. repeat split; try done; try congruence; by eexists.
  - eexists _, m, n, None, s1. cbn. rewrite app_nil_r. by repeat split.
Qed.

(** Every run of the loop of [Remove]: either all removals succeed, or the
    one at some position [n] fails after those before it succeeded. *)
Lemma Remove_range_shape emails : ∀ c w,
  (∃ s',
     Remove_range emails c w =
       (Returned None, with_cache c (evict (cache c) emails),
        asleep (after w s' (kick_calls (conversationName c) (kick_ids (cache c) emails)))
               (length emails)))
  ∨ (∃ n email e0 s',
     emails !! n = Some email ∧
     Remove_range emails c w =
       (Returned (Some (kick_error (conversationName c)
                          (map_index (evict (cache c) (take n emails)) email) e0)),
        with_cache c (evict (cache c) (take n emails)),
        asleep (after w s' (kick_calls (conversationName c)
                              (take (S n) (kick_ids (cache c) emails))))
               n)).
Proof.
  induction emails as [|email rest IH]; intros c w.
  - left. exists (remote w). cbn. by rewrite with_cache_same, after_nil, asleep_0.
  - rewrite Remove_range_step. cbn zeta.
    destruct (KickUserFromConversation _ _ _ _) as [[e|] s].
    + right. exists 0, email, e, s. cbn. by rewrite with_cache_same, asleep_0.
    + destruct (IH (with_cache c (map_delete (cache c) email))
                  (asleep (after w s (kick_calls (conversationName c)
                                        [map_index (cache c) email])) 1))
        as [(s' & ->)|(n & email' & e0 & s' & Hat & ->)].
      * left. exists s'. cbn [cache with_cache conversationName].
        rewrite with_cache_twice, after_asleep, after_after, asleep_asleep. done.
      * right. exists (S n), email', e0, s'. split; [done|].
        cbn [cache with_cache conversationName].
        rewrite with_cache_twice, after_asleep, after_after, asleep_asleep. done.
Qed.

(** Every run of [Remove]. *)
Lemma Remove_shape emails c w :
  ∃ r n k s',
    Remove emails c w =
      (Returned r, with_cache c (evict (cache c) (take k emails)),
       asleep (after w s'
                 (kick_calls (conversationName c) (take n (kick_ids (cache c) emails))))
              k)
    ∧ (k ≤ n ≤ length emails)%nat ∧ (n ≤ S k)%nat
    ∧ match r with
      | None => k = length emails ∧ n = length emails ∧ map_len (cache c) ≠ 0
      | Some e =>
          (e = guard_error ∧ n = 0 ∧ map_len (cache c) = 0)
          ∨ (∃ email e0,
               emails !! k = Some email ∧ n = S k ∧ map_len (cache c) ≠ 0 ∧
               e = kick_error (conversationName c)
                     (map_index (evict (cache c) (take k emails)) email) e0)
      end.
Proof.
  unfold Remove, bind, self. case_decide as Hlen.
  - exists (Some guard_error), 0, 0, (remote w). rewrite !take_0.
    change (evict (cache c) []) with (cache c). unfold kick_calls. cbn [fmap list_fmap].
    rewrite with_cache_same, after_nil, asleep_0.
    repeat split; try done; try (cbn; lia). by left.
  - destruct (Remove_range_shape emails c w)
      as [(s' & ->)|(n & email & e0 & s' & Hat & ->)].
    + exists None, (length emails), (length emails), s'.
      rewrite !firstn_all2 by (by rewrite ?length_kick_ids).
      repeat split; try done; lia.
    + eexists (Some _), (S n), n, s'.
      pose proof (lookup_lt_Some _ _ _ Hat). repeat split; try done; try lia.
      right. by exists email, e0.
Qed.

End AddRemoveShape.

(** ** What the operations never do *)

Section Frames.
Context {St : Type}.
Implicit Types (c : Conversation St) (w : World St).

(** X1.  However a run of [Get] ends (with a result, an error, a panic, or
    still paging), it has only read from the remote: the calls it has made
    are page requests for the adapter's own conversation, at most one per
    iteration, followed by at most one [GetUsersInfo]; none of them changes
    the conversation.  It has not slept, and the adapter's client and
    conversation name are what they were. *)
Theorem Get_only_reads fuel c w :
  client (Get fuel c w).1.2 = client c
  ∧ conversationName (Get fuel c w).1.2 = conversationName c
  ∧ slept (Get fuel c w).2 = slept w
  ∧ ∃ cursors info,
      calls (Get fuel c w).2 =
        calls w ++ page_calls (conversationName c) cursors
                ++ option_list (CallGetUsersInfo <$> info)
      ∧ (length cursors ≤ fuel)%nat
      ∧ Forall (λ call, reading call = true ∧ mutating call = false)
          (page_calls (conversationName c) cursors
             ++ option_list (CallGetUsersInfo <$> info)).
Proof.
  destruct (Get_shape fuel c w)
    as (out & m & cursors & info & s' & -> & Hlen & _).
  repeat split. exists cursors, info. repeat split; [done|].
  apply Forall_app. split.
  - unfold page_calls. apply Forall_fmap, Forall_forall. by intros.
  - destruct info; cbn; [|done]. by repeat constructor.
Qed.

(** X2.  However a run of [Add] ends, the calls it has made are lookups of
    the first emails of the batch, in the order of the batch and one per
    email, followed by at most one invite to the adapter's own conversation;
    the invite comes only after all emails were looked up and carries as
    many IDs as there are emails.  [Add] never removes anybody, never
    sleeps, and leaves the adapter's client and conversation name alone. *)
Theorem Add_only_looks_up_and_invites emails c w :
  client (Add emails c w).1.2 = client c
  ∧ conversationName (Add emails c w).1.2 = conversationName c
  ∧ slept (Add emails c w).2 = slept w
  ∧ ∃ n inv,
      calls (Add emails c w).2 =
        calls w ++ (CallGetUserByEmail <$> take n emails)
                ++ option_list (CallInviteUsersToConversation (conversationName c) <$> inv)
      ∧ (n ≤ length emails)%nat
      ∧ (∀ ids, inv = Some ids → n = length emails ∧ length ids = length emails).
Proof.
  destruct (Add_shape emails c w)
    as (out & m & n & inv & s' & -> & Hn & Hinv & _).
  repeat split. by exists n, inv.
Qed.


End Frames.

(** ** What happens to the cache, and to the errors *)

Lemma evict_allocated (m : GoMap) (emails : list string) :
  is_Some m → is_Some (evict m emails).
Proof.
  induction emails as [|e emails IH] using rev_ind; [done|].
  intros Hm. rewrite evict_snoc. destruct (IH Hm) as [g ->]. by eexists.
Qed.

Lemma evict_lookup_Some (m : GoMap) (emails : list string) k v :
  map_lookup (evict m emails) k = Some v → map_lookup m k = Some v.
Proof.
  destruct (decide (k ∈ emails)) as [Hin|Hout].
  - by rewrite evict_gone.
  - by rewrite evict_kept.
Qed.

Section CacheInvariants.
Context {St : Type}.
Implicit Types (c : Conversation St) (w : World St).

(** X4.  The cache of an adapter becomes nil in one way only.  On an
    adapter whose cache is allocated, as [New] leaves it, [Get] and [Remove]
    leave it allocated however they end, and when [Add] leaves it nil then
    [Add] has returned the error of a failed invite, the invite being the
    last call it made. *)
Theorem cache_nil_only_by_failed_invite c w :
  is_Some (cache c) →
  (∀ fuel, is_Some (cache_after (Get fuel c w)))
  ∧ (∀ emails, is_Some (cache_after (Remove emails c w)))
  ∧ (∀ emails,
       cache_after (Add emails c w) = None →
       ∃ e0 ids,
         (Add emails c w).1.1 = Returned (Some (invite_error (conversationName c) e0))
         ∧ last (calls (Add emails c w).2)
             = Some (CallInviteUsersToConversation (conversationName c) ids)).
Proof.
  intros Hc. split; [|split].
  - intros fuel.
    destruct (Get_shape fuel c w) as (out & m & cursors & info & s' & -> & _ & Halloc & _).
    by apply Halloc.
  - intros emails.
    destruct (Remove_shape emails c w) as (r & n & k & s' & -> & _).
    by apply evict_allocated.
  - intros emails.
    destruct (Add_shape emails c w) as (out & m & n & inv & s' & -> & _ & _ & Hout).
    unfold cache_after. cbn. intros ->.
    destruct out as [[e|]|msg|]; [| | |done].
    + destruct Hout as [(e0 & -> & [ids ->] & _)|(_ & _ & _ & _ & _ & Halloc & _)].
      * exists e0, ids. split; [done|]. cbn. by rewrite !app_assoc, last_snoc.
      * by destruct (Halloc Hc).
    + destruct Hout as (_ & Halloc & _). by destruct (Halloc Hc).
    + destruct Hout as (_ & Halloc & _). by destruct (Halloc Hc).
Qed.

(** X5.  [Get] never drops an entry of the cache: whatever the run does,
    an email that had an entry before still has one after (entries of
    members that have left stay where they are).  The same holds for [Add]
    unless it returns the error of a failed invite. *)
Theorem Get_and_Add_keep_entries c w k :
  is_Some (map_lookup (cache c) k) →
  (∀ fuel, is_Some (map_lookup (cache_after (Get fuel c w)) k))
  ∧ (∀ emails,
       is_Some (map_lookup (cache_after (Add emails c w)) k)
       ∨ ∃ e0, (Add emails c w).1.1
                 = Returned (Some (invite_error (conversationName c) e0))).
Proof.
  intros Hk. split.
  - intros fuel.
    destruct (Get_shape fuel c w) as (out & m & cursors & info & s' & -> & _ & _ & Hmono & _).
    by apply Hmono.
  - intros emails.
    destruct (Add_shape emails c w) as (out & m & n & inv & s' & -> & _ & _ & Hout).
    unfold cache_after. cbn.
    destruct out as [[e|]|msg|]; [| | |done].
    + destruct Hout as [(e0 & -> & _)|(_ & _ & _ & _ & _ & _ & Hmono)].
      * right. by exists e0.
      * left. by apply Hmono.
    + left. destruct Hout as (_ & _ & Hmono). by apply Hmono.
    + left. destruct Hout as (_ & _ & Hmono & _). by apply Hmono.
Qed.

(** X6.  [Remove] never adds an entry to the cache and never changes one:
    every entry found in the cache after a run was there, with the same
    identifier, before. *)
Theorem Remove_never_learns emails c w k v :
  map_lookup (cache_after (Remove emails c w)) k = Some v →
  map_lookup (cache c) k = Some v.
Proof.
  destruct (Remove_shape emails c w) as (r & n & k' & s' & -> & _).
  unfold cache_after. cbn. apply evict_lookup_Some.
Qed.


End CacheInvariants.

(** On the fake workspace: a fresh adapter. *)
Lemma cache_nil_only_by_failed_invite_witness :
  (∀ fuel, is_Some (cache_after (Get fuel (New Fake.slack "C123") (Fake.world ["U1"]))))
  ∧ (∀ emails,
       is_Some (cache_after (Remove emails (New Fake.slack "C123") (Fake.world ["U1"]))))
  ∧ (∀ emails,
       cache_after (Add emails (New Fake.slack "C123") (Fake.world ["U1"])) = None →
       ∃ e0 ids,
         (Add emails (New Fake.slack "C123") (Fake.world ["U1"])).1.1
           = Returned (Some (invite_error "C123" e0))
         ∧ last (calls (Add emails (New Fake.slack "C123") (Fake.world ["U1"])).2)
             = Some (CallInviteUsersToConversation "C123" ids)).
Proof.
  apply (cache_nil_only_by_failed_invite (New Fake.slack "C123") (Fake.world ["U1"])).
  eexists. reflexivity.
Defined.

(** On the fake workspace: alice's entry survives any [Get]. *)
Lemma Get_and_Add_keep_entries_witness :
  is_Some (map_lookup
             (cache_after (Get 5 knows_alice_and_bob (Fake.world ["U3"]))) "a@x.com").
Proof.
  apply (proj1 (Get_and_Add_keep_entries knows_alice_and_bob (Fake.world ["U3"])
                  "a@x.com" ltac:(eexists; vm_compute; reflexivity)) 5).
Defined.

(** On the fake workspace: bob's entry after the removal of alice is the
    one from before. *)
Lemma Remove_never_learns_witness :
  map_lookup (cache knows_alice_and_bob) "b@x.com" = Some "U2".
Proof.
  apply (Remove_never_learns ["a@x.com"] knows_alice_and_bob (Fake.world ["U1"])
           "b@x.com" "U2").
  vm_compute. reflexivity.
Defined.


(** ** More about [Add] and [Remove] *)

Lemma record_pairs_other g pairs k :
  k ∉ pairs.*1 → record_pairs g pairs !! k = g !! k.
Proof.
  induction pairs as [|[k' v] pairs IH] using rev_ind; [done|].
  rewrite fmap_app, not_elem_of_app, record_pairs_snoc. cbn. intros [Hin Hne].
  rewrite lookup_insert_ne; [by apply IH|].
  intros ->. apply Hne. left.
Qed.

(** With distinct emails, each is mapped to the ID at its own position. *)
Lemma record_pairs_own emails : ∀ ids g i email id,
  NoDup emails → emails !! i = Some email → ids !! i = Some id →
  record_pairs g (zip emails ids) !! email = Some id.
Proof.
  induction emails as [|e emails IH]; intros ids g i email id Hnd He Hid;
    [by destruct i|].
  destruct ids as [|id0 ids]; [by destruct i|].
  apply NoDup_cons in Hnd as [Hfresh Hnd].
  change (record_pairs g (zip (e :: emails) (id0 :: ids)))
    with (record_pairs (<[e := id0]> g) (zip emails ids)).
  destruct i as [|i]; cbn in He, Hid.
  - injection He as ->. injection Hid as ->.
    rewrite record_pairs_other; [apply lookup_insert_eq|].
    intros ([k v] & -> & Hin)%list_elem_of_fmap. by apply elem_of_zip_l in Hin.
  - by apply (IH ids _ i).
Qed.

Section MoreAddRemove.
Context {St : Type}.
Implicit Types (c : Conversation St) (w : World St).

(** X8.  When every email of a batch resolves and the invite succeeds, [Add]
    returns nil after one invite that carries the resolved IDs in the order
    of the emails, and the cache is the old one with an entry written for
    every email of the batch: an email outside the batch keeps the entry it
    had (or none), and when the emails of the batch are distinct each is
    mapped to the ID its own lookup returned, replacing any older entry. *)
Theorem Add_success_records emails users c w g s1 s2 :
  cache c = Some g →
  Resolves (client c) emails (remote w) users s1 →
  InviteUsersToConversation (client c) (conversationName c) (ID <$> users) s1
    = (None, s2) →
  Add emails c w =
    (Returned None,
     with_cache c (Some (record_pairs g (zip emails (ID <$> users)))),
     after w s2 ((CallGetUserByEmail <$> emails) ++
       [CallInviteUsersToConversation (conversationName c) (ID <$> users)]))
  ∧ (∀ email, email ∈ emails →
       is_Some (record_pairs g (zip emails (ID <$> users)) !! email))
  ∧ (∀ email, email ∉ emails →
       record_pairs g (zip emails (ID <$> users)) !! email = g !! email)
  ∧ (NoDup emails →
     ∀ i email u, emails !! i = Some email → users !! i = Some u →
       record_pairs g (zip emails (ID <$> users)) !! email = Some (ID u)).
Proof.
  intros Hc HR Hinvite.
  assert (length emails ≤ length (ID <$> users))%nat as Hlen
    by (by rewrite length_fmap, (Resolves_length _ _ _ _ _ HR)).
  split; [|split; [|split]].
  - rewrite (Add_resolved emails users c w s1 HR) by (by rewrite Hc).
    by rewrite Hinvite, Hc.
  - intros email Hin. apply record_pairs_has. by rewrite fst_zip.
  - intros email Hout. apply record_pairs_other. by rewrite fst_zip.
  - intros Hnd i email u He Hu. apply (record_pairs_own emails _ g i); [done..|].
    by rewrite list_lookup_fmap, Hu.
Qed.

(** X9.  An empty batch.  [Add] of no emails still sends the invite, with no
    users: if the remote refuses it, [Add] returns the wrapped error and the
    cache is nil afterwards; if it accepts, nothing changes.  [Remove] of no
    emails makes no call at all: past the guard it returns nil and leaves
    adapter and world as they were. *)
Theorem empty_batches c w :
  (∀ e s, InviteUsersToConversation (client c) (conversationName c) [] (remote w)
            = (Some e, s) →
     Add [] c w =
       (Returned (Some (invite_error (conversationName c) e)), with_cache c None,
        after w s [CallInviteUsersToConversation (conversationName c) []]))
  ∧ (∀ s, InviteUsersToConversation (client c) (conversationName c) [] (remote w)
            = (None, s) →
     Add [] c w =
       (Returned None, c,
        after w s [CallInviteUsersToConversation (conversationName c) []]))
  ∧ (map_len (cache c) ≠ 0 → Remove [] c w = (Returned None, c, w)).
Proof.
  assert (Resolves (client c) [] (remote w) [] (remote w)) as HR by done.
  split; [|split].
  - intros e s Hinvite. rewrite (Add_resolved [] [] c w (remote w) HR) by done.
    cbn [fmap list_fmap]. by rewrite Hinvite.
  - intros s Hinvite. rewrite (Add_resolved [] [] c w (remote w) HR) by done.
    cbn [fmap list_fmap]. rewrite Hinvite. cbn. f_equal. f_equal.
    by destruct c as [cl name [g|]].
  - intros Hlen. unfold Remove, bind, self. by case_decide.
Qed.

(** X10.  An email without an entry is removed under the zero value.  Past
    the guard, when the removals of the emails before [e] succeed and [e]
    has no entry at its turn (the adapter never learnt it, or an earlier
    email of the same batch was [e] itself), [Remove] sends the removal for
    [e] with the empty identifier, whatever the remote makes of it; the
    guard on the empty cache is not asked again. *)
Theorem Remove_unknown_email_sends_empty_id c w pre e post s1 :
  map_len (cache c) ≠ 0 →
  Kicks (client c) (conversationName c) (kick_ids (cache c) pre) (remote w) s1 →
  map_lookup (evict (cache c) pre) e = None →
  ∃ more,
    calls (Remove (pre ++ e :: post) c w).2 =
      calls w ++ kick_calls (conversationName c) (kick_ids (cache c) pre ++ [""]) ++ more.
Proof.
  intros Hlen HK Hnone.
  assert (Remove (pre ++ e :: post) c w = Remove_range (pre ++ e :: post) c w) as ->
    by (unfold Remove, bind, self; by case_decide).
  rewrite (Remove_range_prefix pre (e :: post) c w s1 HK), Remove_range_step.
  cbn [cache client conversationName with_cache remote asleep after].
  assert (map_index (evict (cache c) pre) e = "") as Hid
    by (unfold map_index; by rewrite Hnone).
  rewrite !Hid.
  destruct (KickUserFromConversation _ _ _ _) as [[err|] s2].
  - exists []. cbn. unfold kick_calls. by rewrite fmap_app, app_nil_r, <- app_assoc.
  - destruct (Remove_range_shape post
                (with_cache (with_cache c (evict (cache c) pre))
                   (map_delete (evict (cache c) pre) e))
                (asleep (after (asleep (after w s1 (kick_calls (conversationName c)
                                                     (kick_ids (cache c) pre)))
                                  (length pre))
                           s2 (kick_calls (conversationName c) [""])) 1))
      as [(s' & ->)|(n & email & e0 & s' & _ & ->)];
      eexists; cbn; unfold kick_calls; rewrite fmap_app, <- !app_assoc; done.
Qed.

End MoreAddRemove.

(** On the fake workspace: alice and carol join bob. *)
Lemma Add_success_records_witness :
  Add ["a@x.com"; "c@x.com"] knows_alice_and_bob (Fake.world ["U2"]) =
    (Returned None,
     with_cache knows_alice_and_bob
       (Some (record_pairs (<["a@x.com" := "U1"]> (<["b@x.com" := "U2"]> ∅))
                (zip ["a@x.com"; "c@x.com"] (ID <$> [Fake.alice; Fake.carol])))),
     after (Fake.world ["U2"]) ["U2"; "U1"; "U3"]
       ((CallGetUserByEmail <$> ["a@x.com"; "c@x.com"]) ++
        [CallInviteUsersToConversation "C123" (ID <$> [Fake.alice; Fake.carol])])).
Proof.
  apply (Add_success_records ["a@x.com"; "c@x.com"] [Fake.alice; Fake.carol]
           knows_alice_and_bob (Fake.world ["U2"])
           (<["a@x.com" := "U1"]> (<["b@x.com" := "U2"]> ∅)) ["U2"] ["U2"; "U1"; "U3"]).
  - reflexivity.
  - vm_compute. by repeat split.
  - reflexivity.
Defined.

(** On the fake workspace: an empty batch for an unknown channel costs the
    cache. *)
Lemma empty_batches_witness :
  Add [] (with_cache (New Fake.slack "C999") (cache knows_alice_and_bob))
      (Fake.world ["U1"]) =
    (Returned (Some (invite_error "C999" (errors_New "channel_not_found"))),
     with_cache (with_cache (New Fake.slack "C999") (cache knows_alice_and_bob)) None,
     after (Fake.world ["U1"]) ["U1"] [CallInviteUsersToConversation "C999" []]).
Proof.
  apply (proj1 (empty_batches
                  (with_cache (New Fake.slack "C999") (cache knows_alice_and_bob))
                  (Fake.world ["U1"]))
           (errors_New "channel_not_found") ["U1"]).
  reflexivity.
Defined.

(** On the fake workspace: alice twice in one batch. *)
Lemma Remove_unknown_email_sends_empty_id_witness :
  ∃ more,
    calls (Remove (["a@x.com"] ++ "a@x.com" :: []) knows_alice_and_bob
             (Fake.world ["U1"; "U2"])).2 =
      calls (Fake.world ["U1"; "U2"])
        ++ kick_calls (conversationName knows_alice_and_bob)
             (kick_ids (cache knows_alice_and_bob) ["a@x.com"] ++ [""]) ++ more.
Proof.
  apply (Remove_unknown_email_sends_empty_id knows_alice_and_bob (Fake.world ["U1"; "U2"])
           ["a@x.com"] "a@x.com" [] ["U2"]).
  - vm_compute. lia.
  - vm_compute. by repeat split.
  - vm_compute. reflexivity.
Defined.

(** ** More about [Get] *)

(** The cache entry of an email is the ID of the last recorded user that
    has it. *)
Lemma record_users_lookup g us k :
  record_users g us !! k =
    match last (filter (λ u, Email (Profile u) = k) us) with
    | Some u => Some (ID u)
    | None => g !! k
    end.
Proof.
  induction us as [|u us IH] using rev_ind; [done|].
  rewrite record_users_snoc, filter_app.
  destruct (decide (Email (Profile u) = k)) as [Heq|Hne].
  - rewrite (filter_cons_True _ u []) by done. rewrite filter_nil, last_snoc.
    rewrite <- Heq. apply lookup_insert_eq.
  - rewrite (filter_cons_False _ u []) by done. rewrite filter_nil, app_nil_r.
    by rewrite lookup_insert_ne.
Qed.

(** Recording the same users again changes nothing. *)
Lemma record_users_again g us : record_users (record_users g us) us = record_users g us.
Proof.
  apply map_eq. intros k. rewrite (record_users_lookup (record_users g us)).
  rewrite (record_users_lookup g us).
  by destruct (last (filter _ us)).
Qed.

Section MoreGet.
Context {St : Type}.
Implicit Types (c : Conversation St) (w : World St).

(** [Get] when listing and resolution go through, on an allocated cache. *)
Lemma Get_resolved c w g pages cur s page s1 users s2 fuel :
  cache c = Some g →
  Listing (client c) (conversationName c) "" (remote w) pages cur s →
  GetUsersInConversation (client c) (page_request (conversationName c) cur) s
    = ((page, "", None), s1) →
  GetUsersInfo (client c) (concat (pages.*1) ++ page) s1 = ((Some users, None), s2) →
  length pages < fuel →
  Get fuel c w =
    (Returned (Some (emails_of (humans users)), None),
     with_cache c (Some (record_users g (humans users))),
     after w s2 (page_calls (conversationName c) (requested "" pages ++ [cur])
                   ++ [CallGetUsersInfo (concat (pages.*1) ++ page)])).
Proof.
  intros Hc HL Hlast Hinfo Hfuel.
  rewrite (Get_listed c w pages cur s page s1 fuel HL Hlast Hfuel). cbn zeta.
  by rewrite Hinfo, (Get_range_allocated users [] c _ g Hc).
Qed.

(** X11.  [Get] is idempotent on the cache.  On an adapter whose cache
    already holds what a [Get] of these users records (as the [Get] before
    has left it), a [Get] that resolves the same users returns their emails
    and leaves the adapter exactly as it is. *)
Theorem Get_again_changes_nothing c w g pages cur s page s1 users s2 fuel :
  cache c = Some (record_users g (humans users)) →
  Listing (client c) (conversationName c) "" (remote w) pages cur s →
  GetUsersInConversation (client c) (page_request (conversationName c) cur) s
    = ((page, "", None), s1) →
  GetUsersInfo (client c) (concat (pages.*1) ++ page) s1 = ((Some users, None), s2) →
  length pages < fuel →
  Get fuel c w =
    (Returned (Some (emails_of (humans users)), None), c,
     after w s2 (page_calls (conversationName c) (requested "" pages ++ [cur])
                   ++ [CallGetUsersInfo (concat (pages.*1) ++ page)])).
Proof.
  intros Hc HL Hlast Hinfo Hfuel.
  rewrite (Get_resolved c w _ pages cur s page s1 users s2 fuel Hc HL Hlast Hinfo Hfuel).
  by rewrite record_users_again, <- Hc, with_cache_same.
Qed.

(** X12.  What a [Get] has learnt, [Remove] uses.  After a [Get] that has
    resolved the non-bot user [u], whose email no other resolved non-bot
    user with a different ID shares, a [Remove] of that email on the adapter
    as [Get] left it passes the guard and sends one removal, with the ID of
    [u]; it returns nil and deletes the entry when the remote performs the
    removal, and the remote's error, wrapped, with the cache as it was
    otherwise. *)
Theorem Get_then_Remove c w g pages cur s page s1 users s2 fuel u :
  cache c = Some g →
  Listing (client c) (conversationName c) "" (remote w) pages cur s →
  GetUsersInConversation (client c) (page_request (conversationName c) cur) s
    = ((page, "", None), s1) →
  GetUsersInfo (client c) (concat (pages.*1) ++ page) s1 = ((Some users, None), s2) →
  length pages < fuel →
  u ∈ users → IsBot u = false →
  (∀ v, v ∈ users → IsBot v = false →
        Email (Profile v) = Email (Profile u) → ID v = ID u) →
  ∀ w' err s3,
    KickUserFromConversation (client c) (conversationName c) (ID u) (remote w')
      = (err, s3) →
    Remove [Email (Profile u)] (Get fuel c w).1.2 w' =
      match err with
      | None =>
          (Returned None,
           with_cache c (Some (delete (Email (Profile u)) (record_users g (humans users)))),
           asleep (after w' s3
                     [CallKickUserFromConversation (conversationName c) (ID u)]) 1)
      | Some e =>
          (Returned (Some (kick_error (conversationName c) (ID u) e)),
           with_cache c (Some (record_users g (humans users))),
           after w' s3 [CallKickUserFromConversation (conversationName c) (ID u)])
      end.
Proof.
  intros Hc HL Hlast Hinfo Hfuel Hu Hbot Hsame w' err s3 Hkick.
  rewrite (Get_resolved c w g pages cur s page s1 users s2 fuel Hc HL Hlast Hinfo Hfuel).
  cbn [fst snd].
  assert (record_users g (humans users) !! Email (Profile u) = Some (ID u)) as Hentry.
  { apply record_users_own; [by rewrite elem_of_humans|].
    intros v [Hv Hvbot]%elem_of_humans. by apply Hsame. }
  unfold Remove, bind at 1, self. cbn [cache with_cache map_len].
  case_decide as Hlen.
  { apply map_size_empty_inv in Hlen. by rewrite Hlen in Hentry. }
  rewrite Remove_range_step. cbn [cache with_cache client conversationName].
  assert (map_index (Some (record_users g (humans users))) (Email (Profile u)) = ID u)
    as -> by (unfold map_index, map_lookup; by rewrite Hentry).
  rewrite Hkick. by destruct err.
Qed.

(** X13.  A [Get] that finds nobody does not lift the guard of [Remove].
    On an adapter whose cache has no entry, a [Get] whose resolved users are
    all bots (or that resolves no user at all) returns an empty list and
    leaves the adapter as it is, so that [Remove] keeps failing with
    [ErrCacheEmpty], without a call, although [Get] has been run. *)
Theorem Get_of_nobody_keeps_guard c w pages cur s page s1 users s2 fuel :
  map_len (cache c) = 0 →
  Listing (client c) (conversationName c) "" (remote w) pages cur s →
  GetUsersInConversation (client c) (page_request (conversationName c) cur) s
    = ((page, "", None), s1) →
  GetUsersInfo (client c) (concat (pages.*1) ++ page) s1 = ((Some users, None), s2) →
  length pages < fuel →
  humans users = [] →
  (Get fuel c w).1 = (Returned (Some [], None), c)
  ∧ ∀ emails w',
      Remove emails (Get fuel c w).1.2 w' = (Returned (Some guard_error), c, w').
Proof.
  intros Hlen HL Hlast Hinfo Hfuel Hnobody.
  assert ((Get fuel c w).1 = (Returned (Some [], None), c)) as Hget.
  { rewrite (Get_listed c w pages cur s page s1 fuel HL Hlast Hfuel). cbn zeta.
    by rewrite Hinfo, (Get_range_bots users [] c _ Hnobody). }
  split; [done|]. intros emails w'. rewrite Hget. cbn [snd].
  unfold Remove, bind, self. by case_decide.
Qed.

End MoreGet.

(** On the fake workspace: the second [Get] of the same members. *)
Lemma Get_again_changes_nothing_witness :
  Get 5 (with_cache (New Fake.slack "C123")
           (Some (record_users ∅ (humans [Fake.alice; Fake.deploybot; Fake.bob]))))
      (Fake.world ["U1"; "B1"; "U2"]) =
    (Returned (Some (emails_of (humans [Fake.alice; Fake.deploybot; Fake.bob])), None),
     with_cache (New Fake.slack "C123")
       (Some (record_users ∅ (humans [Fake.alice; Fake.deploybot; Fake.bob]))),
     after (Fake.world ["U1"; "B1"; "U2"]) ["U1"; "B1"; "U2"]
       (page_calls "C123" (requested "" [(["U1"; "B1"], "page2")] ++ ["page2"])
          ++ [CallGetUsersInfo (concat ([(["U1"; "B1"], "page2")].*1) ++ ["U2"])])).
Proof.
  apply (Get_again_changes_nothing
           (with_cache (New Fake.slack "C123")
              (Some (record_users ∅ (humans [Fake.alice; Fake.deploybot; Fake.bob]))))
           (Fake.world ["U1"; "B1"; "U2"]) ∅
           [(["U1"; "B1"], "page2")] "page2" ["U1"; "B1"; "U2"] ["U2"]
           ["U1"; "B1"; "U2"] [Fake.alice; Fake.deploybot; Fake.bob]
           ["U1"; "B1"; "U2"] 5).
  - reflexivity.
  - vm_compute. by repeat split.
  - reflexivity.
  - reflexivity.
  - simpl. lia.
Defined.

(** On the fake workspace: bob is fetched and then removed. *)
Lemma Get_then_Remove_witness :
  Remove [Email (Profile Fake.bob)]
    (Get 5 (New Fake.slack "C123") (Fake.world ["U1"; "B1"; "U2"])).1.2
    (Fake.world ["U1"; "B1"; "U2"]) =
    (Returned None,
     with_cache (New Fake.slack "C123")
       (Some (delete (Email (Profile Fake.bob))
                (record_users ∅ (humans [Fake.alice; Fake.deploybot; Fake.bob])))),
     asleep (after (Fake.world ["U1"; "B1"; "U2"]) ["U1"; "B1"]
               [CallKickUserFromConversation "C123" (ID Fake.bob)]) 1).
Proof.
  refine (Get_then_Remove (New Fake.slack "C123") (Fake.world ["U1"; "B1"; "U2"]) ∅
            [(["U1"; "B1"], "page2")] "page2" ["U1"; "B1"; "U2"] ["U2"]
            ["U1"; "B1"; "U2"] [Fake.alice; Fake.deploybot; Fake.bob]
            ["U1"; "B1"; "U2"] 5 Fake.bob _ _ _ _ _ _ _ _
            (Fake.world ["U1"; "B1"; "U2"]) None ["U1"; "B1"] _).
  - reflexivity.
  - vm_compute. by repeat split.
  - reflexivity.
  - reflexivity.
  - simpl. lia.
  - do 2 right. left.
  - reflexivity.
  - intros v Hv Hbot Heq.
    repeat (apply elem_of_cons in Hv as [->|Hv]); try discriminate;
      [reflexivity|by apply elem_of_nil in Hv].
  - vm_compute. reflexivity.
Defined.

(** On the fake workspace: a conversation with nobody but the bot. *)
Lemma Get_of_nobody_keeps_guard_witness :
  (Get 5 (New Fake.slack "C123") (Fake.world ["B1"])).1
    = (Returned (Some [], None), New Fake.slack "C123")
  ∧ ∀ emails w',
      Remove emails (Get 5 (New Fake.slack "C123") (Fake.world ["B1"])).1.2 w'
        = (Returned (Some guard_error), New Fake.slack "C123", w').
Proof.
  apply (Get_of_nobody_keeps_guard (New Fake.slack "C123") (Fake.world ["B1"])
           [] "" ["B1"] ["B1"] ["B1"] [Fake.deploybot] ["B1"] 5).
  - reflexivity.
  - by split.
  - reflexivity.
  - reflexivity.
  - simpl. lia.
  - reflexivity.
Defined.

(** ** Emptying the cache, nil results, and the constructor *)

Section Remaining.
Context {St : Type}.
Implicit Types (c : Conversation St) (w : World St).

(** Once every email with an entry is evicted, the cache is the empty map. *)
Lemma evict_everything g emails :
  (∀ k, is_Some (g !! k) → k ∈ emails) → evict (Some g) emails = Some ∅.
Proof.
  intros Hall. destruct (evict_allocated (Some g) emails) as [g' Hg']; [by eexists|].
  rewrite Hg'. f_equal. apply map_empty. intros k.
  change (g' !! k) with (map_lookup (Some g') k). rewrite <- Hg'.
  destruct (decide (k ∈ emails)) as [Hin|Hout]; [by apply evict_gone|].
  rewrite evict_kept by done. cbn.
  destruct (g !! k) as [v|] eqn:Hk; [|done].
  destruct Hout. apply Hall. by eexists.
Qed.

(** X14.  Removing everybody brings the guard back.  When the batch covers
    every email that has an entry and all removals succeed, [Remove] returns
    nil and leaves an allocated cache without entries; from then on every
    [Remove], of whatever emails, fails with [ErrCacheEmpty] and makes no
    call. *)
Theorem Remove_of_everybody_restores_guard emails c w g s1 :
  cache c = Some g → g ≠ ∅ →
  (∀ k, is_Some (g !! k) → k ∈ emails) →
  Kicks (client c) (conversationName c) (kick_ids (cache c) emails) (remote w) s1 →
  Remove emails c w =
    (Returned None, with_cache c (Some ∅),
     asleep (after w s1 (kick_calls (conversationName c) (kick_ids (cache c) emails)))
            (length emails))
  ∧ ∀ emails' w',
      Remove emails' (with_cache c (Some ∅)) w' =
        (Returned (Some guard_error), with_cache c (Some ∅), w').
Proof.
  intros Hc Hne Hall HK. split.
  - unfold Remove, bind at 1, self. rewrite Hc. cbn [map_len].
    case_decide as Hlen; [by apply map_size_empty_inv in Hlen|].
    pose proof (Remove_range_prefix emails [] c w s1 HK) as Hrun.
    rewrite app_nil_r in Hrun. rewrite Hrun. cbn [Remove_range]. unfold ret.
    by rewrite Hc, (evict_everything g emails Hall).
  - intros emails' w'. unfold Remove, bind, self. cbn [cache with_cache map_len].
    rewrite map_size_empty. by case_decide.
Qed.

(** X15.  A client that returns neither a result nor an error makes the
    adapter panic on the nil pointer.  In [Get] this happens after the
    listing, at the resolved users, and the adapter is left as it was; in
    [Add] it happens at the first such lookup, after the emails before it
    were recorded, and no invite is sent. *)
Theorem nil_results_panic c w :
  (∀ pages cur s page s1 s2 fuel,
     Listing (client c) (conversationName c) "" (remote w) pages cur s →
     GetUsersInConversation (client c) (page_request (conversationName c) cur) s
       = ((page, "", None), s1) →
     GetUsersInfo (client c) (concat (pages.*1) ++ page) s1 = ((None, None), s2) →
     length pages < fuel →
     Get fuel c w =
       (Panicked nil_deref_panic, c,
        after w s2 (page_calls (conversationName c) (requested "" pages ++ [cur])
                      ++ [CallGetUsersInfo (concat (pages.*1) ++ page)])))
  ∧ (∀ pre e post users s1 s2,
     Resolves (client c) pre (remote w) users s1 →
     GetUserByEmail (client c) e s1 = ((None, None), s2) →
     (cache c = None → pre = []) →
     Add (pre ++ e :: post) c w =
       (Panicked nil_deref_panic,
        with_cache c ((λ g, record_pairs g (zip pre (ID <$> users))) <$> cache c),
        after w s2 (CallGetUserByEmail <$> (pre ++ [e])))).
Proof.
  split.
  - intros pages cur s page s1 s2 fuel HL Hlast Hinfo Hfuel.
    rewrite (Get_listed c w pages cur s page s1 fuel HL Hlast Hfuel). cbn zeta.
    by rewrite Hinfo.
  - intros pre e post users s1 s2 HR He Hnil. unfold Add. unfold bind at 1.
    rewrite (Add_range_prefix pre users (e :: post) 0 _ c w s1 HR Hnil).
    rewrite Add_range_step. cbn [client with_cache remote after]. rewrite He.
    cbn. by rewrite after_after, fmap_app.
Qed.

End Remaining.

(** X16.  [New] applies its options in the order given.  With logger
    options the adapter gets the logger of the last one, or the logger [New]
    creates itself when there is none; whatever loggers are passed, the
    adapter has the given client and conversation name and an allocated
    cache without entries. *)
Theorem New_with_logger_options {St L} (std : L) (cl : iSlackConversation St)
    (channelName : string) (loggers : list L) :
  New_with_options std cl channelName (OptionLogger <$> loggers) =
    {| adapter := New cl channelName; logger := default std (last loggers) |}
  ∧ cache (adapter (New_with_options std cl channelName (OptionLogger <$> loggers)))
      = Some ∅.
Proof.
  assert (New_with_options std cl channelName (OptionLogger <$> loggers) =
            {| adapter := New cl channelName; logger := default std (last loggers) |})
    as Heq.
  { induction loggers as [|l loggers IH] using rev_ind; [done|].
    unfold New_with_options in *. rewrite fmap_app, foldl_app, IH. cbn.
    by rewrite last_snoc. }
  split; [done|]. by rewrite Heq.
Qed.

(** On the fake workspace: alice and bob, all the adapter knows, are
    removed. *)
Lemma Remove_of_everybody_restores_guard_witness :
  Remove ["a@x.com"; "b@x.com"] knows_alice_and_bob (Fake.world ["U1"; "U2"]) =
    (Returned None, with_cache knows_alice_and_bob (Some ∅),
     asleep (after (Fake.world ["U1"; "U2"]) []
               (kick_calls (conversationName knows_alice_and_bob)
                  (kick_ids (cache knows_alice_and_bob) ["a@x.com"; "b@x.com"])))
            (length ["a@x.com"; "b@x.com"]))
  ∧ ∀ emails' w',
      Remove emails' (with_cache knows_alice_and_bob (Some ∅)) w' =
        (Returned (Some guard_error), with_cache knows_alice_and_bob (Some ∅), w').
Proof.
  apply (Remove_of_everybody_restores_guard ["a@x.com"; "b@x.com"] knows_alice_and_bob
           (Fake.world ["U1"; "U2"])
           (<["a@x.com" := "U1"]> (<["b@x.com" := "U2"]> ∅)) []).
  - reflexivity.
  - intros Heq. vm_compute in Heq. discriminate.
  - intros k [v Hk].
    destruct (decide (k = "a@x.com")) as [->|Ha]; [left|].
    destruct (decide (k = "b@x.com")) as [->|Hb]; [right; left|].
    rewrite !lookup_insert_ne, lookup_empty in Hk by done. discriminate.
  - vm_compute. by repeat split.
Defined.

(** On the silent test double: the listing names a member, the resolution
    returns nothing. *)
Lemma nil_results_panic_witness :
  Get 5 (New Fake.silent "C123") (Fake.world ()) =
    (Panicked nil_deref_panic, New Fake.silent "C123",
     after (Fake.world ()) ()
       (page_calls "C123" (requested "" [] ++ [""])
          ++ [CallGetUsersInfo ["U1"]])).
Proof.
  apply (proj1 (nil_results_panic (New Fake.silent "C123") (Fake.world ()))
           [] "" () ["U1"] () () 5).
  - by split.
  - reflexivity.
  - reflexivity.
  - simpl. lia.
Defined.

(** Two logger options: the second one wins. *)
Example New_with_two_loggers (cl : iSlackConversation unit) :
  logger (New_with_options "stderr" cl "C123"
            [OptionLogger "first"; OptionLogger "second"]) = "second".
Proof. reflexivity. Qed.
